(** * generate_test_data.py: event generator, dispatcher and statistics

    A shallow embedding of [generate_test_data.py].  Python exceptions are an
    error result.  The sources of nondeterminism outside the script (the
    state of module [random], the [Faker] instance [fake], the wall clock and
    the HTTP endpoint) are the fields of an explicit [World], threaded
    through a state and exception monad.  Python dictionaries are
    insertion-ordered association lists, because the report sorts their
    items with a stable sort.  [generate_event], [send_event],
    [send_events_sequential] and [print_statistics] follow the source
    statement by statement; [send_events_batch], whose result order is that
    of thread completion, has no counterpart here. *)

From Stdlib Require Import ZArith List String Ascii Bool Arith Lia.
From Stdlib Require Import QArith DecimalString DecimalZ Permutation Sorted.
Import ListNotations.

Local Open Scope string_scope.
Local Open Scope Z_scope.

(* ================================================================== *)
(** * Python values and built-ins used by the script *)
(* ================================================================== *)

Module Py.

(** The exception classes the script can meet. *)
Inductive exn : Type :=
| ValueError (msg : string)
| IndexError (msg : string)
| ZeroDivisionError (msg : string)
| OverflowError (msg : string)
| ConnectionError (msg : string).

(** [str(e)] of an exception. *)
Definition str_exn (e : exn) : string :=
  match e with
  | ValueError m | IndexError m | ZeroDivisionError m
  | OverflowError m | ConnectionError m => m
  end.

Inductive result (A : Type) : Type :=
| Ok (a : A)
| Raise (e : exn).
Arguments Ok {A} a.
Arguments Raise {A} e.

Definition is_ok {A} (r : result A) : bool :=
  match r with Ok _ => true | Raise _ => false end.

(** [str(n)] for an [int]. *)
Definition str (n : Z) : string := NilZero.string_of_int (Z.to_int n).

(** [len(l)] as a Python [int]. *)
Definition len {A} (l : list A) : Z := Z.of_nat (List.length l).

Fixpoint zeros (n : nat) : string :=
  match n with
  | O => EmptyString
  | S n' => String "0" (zeros n')
  end.

(** [s.zfill(width)]: left-pads with ["0"], after a leading sign if any. *)
Definition zfill (s : string) (width : nat) : string :=
  let pad := zeros (width - String.length s) in
  match s with
  | String c rest =>
      if (Ascii.eqb c "-" || Ascii.eqb c "+")%bool
      then String c (pad ++ rest)
      else pad ++ s
  | EmptyString => pad
  end.

(** [s[:n]]: the first [n] characters, the whole string if it is shorter. *)
Fixpoint slice_to (n : nat) (s : string) : string :=
  match n, s with
  | O, _ => EmptyString
  | S n', String c rest => String c (slice_to n' rest)
  | S _, EmptyString => EmptyString
  end.

(** [l[i]] with Python's negative indices; out of range raises. *)
Definition getitem {A} (l : list A) (i : Z) : result A :=
  let j := if i <? 0 then i + len l else i in
  if (j <? 0) || (len l <=? j) then Raise (IndexError "list index out of range")
  else match nth_error l (Z.to_nat j) with
       | Some x => Ok x
       | None => Raise (IndexError "list index out of range")
       end.

(** [range(lo, hi)]. *)
Definition range (lo hi : Z) : list Z :=
  map (fun k => lo + Z.of_nat k) (seq 0 (Z.to_nat (hi - lo))).

(** [enumerate(l, start)]. *)
Fixpoint enumerate {A} (l : list A) (start : Z) : list (Z * A) :=
  match l with
  | [] => []
  | x :: l' => (start, x) :: enumerate l' (start + 1)
  end.

(** A pseudo-random generator is the tape of raw values it will produce;
    an exhausted tape keeps producing [0]. *)
Definition rng : Type := list Z.

Definition next (g : rng) : Z * rng := (hd 0 g, tl g).

(** [Random.randint(a, b)]: an integer with [a <= n <= b]; an empty range
    raises [ValueError]. *)
Definition randint (a b : Z) (g : rng) : result Z * rng :=
  if b <? a then (Raise (ValueError "empty range for randrange()"), g)
  else let (r, g') := next g in (Ok (a + r mod (b - a + 1)), g').

(** [Random.choice(seq)]: an element of [seq]; an empty one raises
  [IndexError]. *)
Definition choice {A} (l : list A) (g : rng) : result A * rng :=
  match l with
  | [] => (Raise (IndexError "Cannot choose from an empty sequence"), g)
  | d :: _ =>
      let (r, g') := next g in
      (Ok (nth (Z.to_nat (r mod len l)) l d), g')
  end.

(** ** Insertion-ordered dictionaries *)

Section Dict.
Context {K V : Type} (eqb : K -> K -> bool).

Definition dict : Type := list (K * V).

(** [d.get(k, default)]. *)
Fixpoint get (d : dict) (k : K) (default : V) : V :=
  match d with
    | [] => default
    | (k', v) :: d' => if eqb k' k then v else get d' k default
    end.

(** [d[k] = v]: an existing key keeps its position, a new one goes last. *)
Fixpoint set (d : dict) (k : K) (v : V) : dict :=
  match d with
    | [] => [(k, v)]
    | (k', v') :: d' =>
        if eqb k' k then (k', v) :: d' else (k', v') :: set d' k v
    end.

Definition keys (d : dict) : list K := map fst d.
Definition values (d : dict) : list V := map snd d.
Definition items (d : dict) : list (K * V) := d.
End Dict.

(** [sum(l)]. *)
Definition sum (l : list Z) : Z := fold_left Z.add l 0.

(** ** [sorted]: a stable sort

  [le x y] says that [x] may stand before [y]; elements neither of which
  must stand behind the other keep their input order.  With
  [reverse=True] Python compares the keys the other way round and still
  keeps the input order of equal keys. *)
Section Sorted.
Context {A : Type} (le : A -> A -> bool).

Fixpoint insert (x : A) (l : list A) : list A :=
  match l with
    | [] => [x]
    | y :: l' => if le x y then x :: y :: l' else y :: insert x l'
    end.

Definition sorted (l : list A) : list A := fold_right insert [] l.
End Sorted.

End Py.

Import Py.

(* ================================================================== *)
(** * CONFIGURATION *)
(* ================================================================== *)

Record Config : Type := {
  API_URL : string;
  API_KEY : string;
  NUM_EVENTS : Z;
  NUM_UNIQUE_IDCARDS : Z;
  BATCH_SIZE : Z;
  SAVE_TO_FILE : bool;
  SHOW_PROGRESS : bool
}.

Definition default_Config : Config := {|
  API_URL := "http://localhost:8080/v1/profiles/track";
  API_KEY := "cdp_demo_demo";
  NUM_EVENTS := 1000;
  NUM_UNIQUE_IDCARDS := 700;
  BATCH_SIZE := 50;
  SAVE_TO_FILE := true;
  SHOW_PROGRESS := true
|}.

(* ================================================================== *)
(** * DATA POOLS *)
(* ================================================================== *)

Definition TYPES : list string :=
  ["login"; "register"; "update_profile"; "purchase"; "view_product"].
Definition GENDERS : list string := ["male"; "female"; "other"].
Definition RELIGIONS : list string :=
  ["Buddhism"; "Catholic"; "None"; "Protestant"; "Other"].
Definition OS_LIST : list string :=
  ["Windows 10"; "Windows 11"; "macOS"; "Ubuntu"; "iOS"; "Android"].
Definition DEVICES : list string :=
  ["Desktop"; "MacBook Pro"; "iPhone 15"; "Samsung Galaxy S24"; "iPad"; "Laptop"].
Definition BROWSERS : list string :=
  ["Chrome"; "Safari"; "Firefox"; "Edge"; "Opera"].
Definition UTM_SOURCES : list string :=
  ["google"; "facebook"; "instagram"; "direct"; "email"; "tiktok"].
Definition UTM_CAMPAIGNS : list string :=
  ["summer_sale"; "winter_promo"; "none"; "black_friday"; "new_year"].
Definition UTM_MEDIUMS : list string :=
  ["cpc"; "organic"; "email"; "social"; "referral"].
Definition REG_SOURCES : list string :=
  ["web_desktop"; "web_mobile"; "ios_app"; "android_app"; "api"].


(* ================================================================== *)
(** * Event records *)
(* ================================================================== *)

Record Traits : Type := {
  full_name : string;
  first_name : string;
  last_name : string;
  idcard : string;
  old_idcard : string;
  phone : string;
  email : string;
  gender : string;
  dob : string;
  address : string;
  religion : string
}.

Record Platforms : Type := {
  os : string;
  device : string;
  browser : string;
  app_version : string
}.

Record Campaign : Type := {
  utm_source : string;
  utm_campaign : string;
  utm_medium : string
}.

Record Metadata : Type := {
  first_seen_at : Z;
  last_seen_at : Z;
  registration_source : string;
  user_agent : string;
  login_count : Z
}.

Record Event : Type := {
  type : string;
  user_id : string;
  traits : Traits;
  platforms : Platforms;
  campaign : Campaign;
  metadata : Metadata
}.

(** The arguments of [requests.post(url, json=..., headers=..., timeout=...)]. *)
Record Request : Type := {
  url : string;
  json : Event;
  headers : list (string * string);
  timeout : Z
}.

(* ================================================================== *)
(** * The world outside the script *)
(* ================================================================== *)

(** A [datetime] is a number of microseconds counted from the Unix epoch, a
    [timedelta] a signed number of microseconds. *)
Definition datetime : Type := Z.
Definition timedelta_t : Type := Z.

Definition us_per_second : Z := 1000000.
Definition us_per_minute : Z := 60 * us_per_second.
Definition us_per_hour : Z := 60 * us_per_minute.
Definition us_per_day : Z := 24 * us_per_hour.

(** [datetime.min] is 0001-01-01T00:00:00, 719162 days before the epoch, and
    [datetime.max] is 9999-12-31T23:59:59.999999. *)
Definition datetime_min : datetime := - (719162 * us_per_day).
Definition datetime_max : datetime := 2932897 * us_per_day - 1.

(** [timedelta(days=d, hours=h, minutes=m)]. *)
Definition timedelta (days hours minutes : Z) : timedelta_t :=
  days * us_per_day + hours * us_per_hour + minutes * us_per_minute.

(** [d - delta]; a result outside [datetime.min .. datetime.max] raises
    [OverflowError]. *)
Definition datetime_sub (d : datetime) (delta : timedelta_t) : result datetime :=
  let r := d - delta in
  if (r <? datetime_min) || (datetime_max <? r)
  then Raise (OverflowError "date value out of range")
  else Ok r.

(** What [strftime("%Y-%m-%dT%H:%M:%S.000Z")] keeps of a [datetime]: the
    whole seconds; the fraction printed is the constant [000]. *)
Definition strftime_seconds (d : datetime) : Z := d / us_per_second.

(** The providers of [Faker] the script calls.  Their texts come from the
    locale tables of the library, which are a field of the instance. *)
Inductive provider : Type :=
| p_first_name | p_last_name | p_phone_number | p_email
| p_date_of_birth | p_address | p_user_agent.

Record Faker : Type := {
  locale : provider -> Z -> string;
  generator : rng
}.

(** One HTTP exchange: a response with its status line and body, or a
    transport fault (the exception [requests.post] raises). *)
Inductive HttpResult : Type :=
| Response (status_code : Z) (text : string)
| Fault (e : exn).

Record World : Type := {
  random : rng;                          (* the state of module [random] *)
  fake : Faker;                          (* [fake = Faker('vi_VN')] *)
  clock : rng;                           (* successive readings of the clock *)
  endpoint : list (Request -> HttpResult) (* what each next call will meet *)
}.

(* ================================================================== *)
(** * State and exception monad *)
(* ================================================================== *)

Definition M (A : Type) : Type := World -> result A * World.

Definition ret {A} (a : A) : M A := fun w => (Ok a, w).

Definition bind {A B} (m : M A) (k : A -> M B) : M B :=
  fun w =>
    match m w with
    | (Ok a, w') => k a w'
    | (Raise e, w') => (Raise e, w')
    end.

Definition lift {A} (r : result A) : M A := fun w => (r, w).

(** [try: body  except Exception as e: handler(e)]. *)
Definition try_except {A} (body : M A) (handler : exn -> M A) : M A :=
  fun w =>
    match body w with
    | (Ok a, w') => (Ok a, w')
    | (Raise e, w') => handler e w'
    end.

Definition with_random {A} (f : rng -> result A * rng) : M A :=
  fun w =>
    let (r, g) := f (random w) in
    (r, {| random := g; fake := fake w; clock := clock w; endpoint := endpoint w |}).

Definition with_fake {A} (f : Faker -> result A * Faker) : M A :=
  fun w =>
    let (r, fk) := f (fake w) in
    (r, {| random := random w; fake := fk; clock := clock w; endpoint := endpoint w |}).

(** [random.randint(a, b)] and [random.choice(seq)] on the module's state. *)
Definition random_randint (a b : Z) : M Z := with_random (randint a b).
Definition random_choice {A} (l : list A) : M A := with_random (choice l).

(** [fake.random_int(min=lo, max=hi)]. *)
Definition fake_random_int (lo hi : Z) : M Z :=
  with_fake (fun fk =>
    let (r, g) := randint lo hi (generator fk) in
    (r, {| locale := locale fk; generator := g |})).

(** A text provider of [fake]: the locale renders one raw draw. *)
Definition fake_text (p : provider) : M string :=
  with_fake (fun fk =>
    let (r, g) := next (generator fk) in
    (Ok (locale fk p r), {| locale := locale fk; generator := g |})).

(** [datetime.now()]: a reading of the clock, between the epoch and
    [datetime.max]. *)
Definition datetime_now : M datetime :=
  fun w =>
    let (r, c) := next (clock w) in
    (Ok (r mod (datetime_max + 1)),
     {| random := random w; fake := fake w; clock := c; endpoint := endpoint w |}).

Declare Scope py_scope.
Delimit Scope py_scope with py.
Notation "x <- m ;; k" := (bind m (fun x => k))
  (at level 61, m at next level, right associativity) : py_scope.
Local Open Scope py_scope.

(* ================================================================== *)
(** * EVENT GENERATOR *)
(* ================================================================== *)

Definition generate_event (index : Z) (idcard_pool old_idcard_pool : list string)
  : M Event :=
  idcard_index <- random_randint 0 (len idcard_pool - 1) ;;
  idcard <- lift (getitem idcard_pool idcard_index) ;;
  old_idcard <- lift (getitem old_idcard_pool idcard_index) ;;
  days_ago <- random_randint 0 30 ;;
  hours_ago <- random_randint 0 23 ;;
  minutes_ago <- random_randint 0 59 ;;
  now <- datetime_now ;;
  event_time <- lift (datetime_sub now (timedelta days_ago hours_ago minutes_ago)) ;;
  first_days <- random_randint 0 365 ;;
  first_seen <- lift (datetime_sub event_time (timedelta first_days 0 0)) ;;
  first_name <- fake_text p_first_name ;;
  last_name <- fake_text p_last_name ;;
  let full_name := last_name ++ " " ++ first_name in
  type <- random_choice TYPES ;;
  form <- random_choice ["desktop"; "mobile"; "tablet"] ;;
  let user_id := "user_" ++ form ++ "_" ++ zfill (str index) 5 in
  phone <- fake_text p_phone_number ;;
  email <- fake_text p_email ;;
  gender <- random_choice GENDERS ;;
  dob <- fake_text p_date_of_birth ;;
  address <- fake_text p_address ;;
  religion <- random_choice RELIGIONS ;;
  os <- random_choice OS_LIST ;;
  device <- random_choice DEVICES ;;
  browser <- random_choice BROWSERS ;;
  major <- random_randint 1 3 ;;
  minor <- random_randint 0 9 ;;
  patch <- random_randint 0 9 ;;
  utm_source <- random_choice UTM_SOURCES ;;
  utm_campaign <- random_choice UTM_CAMPAIGNS ;;
  utm_medium <- random_choice UTM_MEDIUMS ;;
  registration_source <- random_choice REG_SOURCES ;;
  user_agent <- fake_text p_user_agent ;;
  login_count <- random_randint 1 100 ;;
  ret {|
    type := type;
    user_id := user_id;
    traits := {|
      full_name := full_name; first_name := first_name; last_name := last_name;
      idcard := idcard; old_idcard := old_idcard;
      phone := phone; email := email; gender := gender; dob := dob;
      address := address; religion := religion |};
    platforms := {|
      os := os; device := device; browser := browser;
      app_version := str major ++ "." ++ str minor ++ "." ++ str patch |};
    campaign := {|
      utm_source := utm_source; utm_campaign := utm_campaign;
      utm_medium := utm_medium |};
    metadata := {|
      first_seen_at := strftime_seconds first_seen;
      last_seen_at := strftime_seconds event_time;
      registration_source := registration_source;
      user_agent := user_agent;
      login_count := login_count |}
  |}.

(** [[f(i) for i in l]] for an effectful [f]. *)
Fixpoint comprehension {A B} (f : A -> M B) (l : list A) : M (list B) :=
  match l with
  | [] => ret []
  | x :: l' => y <- f x ;; ys <- comprehension f l' ;; ret (y :: ys)
  end.

(** The pools of [main]: [n] draws of [fake.random_int] each. *)
Definition make_idcard_pool (n : Z) : M (list string) :=
  comprehension
    (fun _ => v <- fake_random_int 100000000000 100000000095 ;; ret (str v))
    (range 0 n).

Definition make_old_idcard_pool (n : Z) : M (list string) :=
  comprehension
    (fun _ => v <- fake_random_int 100000000 999999999 ;; ret (str v))
    (range 0 n).

(** The events of [main]. *)
Definition generate_events (n : Z) (idcard_pool old_idcard_pool : list string)
  : M (list Event) :=
  comprehension (fun i => generate_event i idcard_pool old_idcard_pool)
                (range 1 (n + 1)).

(* ================================================================== *)
(** * API SENDER *)
(* ================================================================== *)

(** The outcome dictionary of one send.  Its last entry is either the key
    ["response"] (whose value may be [None]) or the key ["error"]. *)
Inductive Detail : Type :=
| response (body : option string)
| error (msg : string).

Module Outcome.
Record t : Type := {
  index : Z;
  status_code : Z;
  success : bool;
  idcard : string;
  type : string;
  detail : Detail
}.
End Outcome.

(** [requests.post]: the next exchange with the endpoint.  A fault is raised
    as the exception it is; an endpoint that has nothing more to say refuses
    the connection. *)
Definition requests_post (rq : Request) : M (Z * string) :=
  fun w =>
    match endpoint w with
    | [] => (Raise (ConnectionError "Connection refused"), w)
    | exchange :: rest =>
        let w' := {| random := random w; fake := fake w; clock := clock w;
                     endpoint := rest |} in
        match exchange rq with
        | Response status_code text => (Ok (status_code, text), w')
        | Fault e => (Raise e, w')
        end
    end.

(** [x in l] for integers. *)
Definition contains (l : list Z) (x : Z) : bool := existsb (Z.eqb x) l.

Definition send_event (event : Event) (index : Z) (config : Config)
  : M Outcome.t :=
  try_except
    (let headers := [("Content-Type", "application/json");
                     ("X-API-Key", API_KEY config)] in
     resp <- requests_post {| url := API_URL config; json := event;
                              headers := headers; timeout := 10 |} ;;
     let (status_code, text) := resp : Z * string in
     ret {| Outcome.index := index;
            Outcome.status_code := status_code;
            Outcome.success := contains [200; 201] status_code;
            Outcome.idcard := idcard (traits event);
            Outcome.type := type event;
            Outcome.detail :=
              response (if 400 <=? status_code
                        then Some (slice_to 200 text) else None) |})
    (fun e =>
     ret {| Outcome.index := index;
            Outcome.status_code := 0;
            Outcome.success := false;
            Outcome.idcard := idcard (traits event);
            Outcome.type := type event;
            Outcome.detail := error (str_exn e) |}).

(* ================================================================== *)
(** * BATCH PROCESSING *)
(* ================================================================== *)

(** [for x in l: s = body(x, s)]. *)
Fixpoint for_each {A S} (body : A -> S -> M S) (l : list A) (s : S) : M S :=
  match l with
  | [] => ret s
  | x :: l' => s' <- body x s ;; for_each body l' s'
  end.

(** [tqdm(it, ...)] yields the items of [it]; the progress bar it draws and
    the pause of [time.sleep] are not observable in the results. *)
Definition tqdm {A} (it : list A) : list A := it.
Definition time_sleep : M unit := ret tt.

Definition send_events_sequential (events : list Event) (config : Config)
  : M (list Outcome.t) :=
  let iterator :=
    if SHOW_PROGRESS config then tqdm (enumerate events 1)
    else enumerate events 1 in
  for_each
    (fun (item : Z * Event) results =>
       let (i, event) := item in
       result <- send_event event i config ;;
       _ <- time_sleep ;;
       ret (results ++ [result])%list)
    iterator [].

(* ================================================================== *)
(** * STATISTICS *)
(* ================================================================== *)

(** [a / b * 100] on integers [a], [b].  A zero divisor raises
    [ZeroDivisionError].  Otherwise the value kept is the exact quotient,
    where Python computes a binary float and the report prints it with one
    decimal: no statement below depends on the quotient being exact. *)
Definition percent (a b : Z) : result Q :=
  if b =? 0 then Raise (ZeroDivisionError "division by zero")
  else Ok (Qmult (Qmake a (Z.to_pos b)) (inject_Z 100)).

(** The histogram loops: [d[k] = d.get(k, 0) + 1] for each key in turn. *)
Definition count_keys {K} (eqb : K -> K -> bool) (ks : list K) : dict (K:=K) (V:=Z) :=
  fold_left (fun d k => set eqb d k (get eqb d k 0 + 1)) ks [].

(** Tuples [(code, count)] in Python's lexicographic order. *)
Definition item_le (a b : Z * Z) : bool :=
  (fst a <? fst b) || ((fst a =? fst b) && (snd a <=? snd b)).

(** [key=lambda x: x[1], reverse=True]. *)
Definition count_ge {K} (a b : K * Z) : bool := snd b <=? snd a.

(** [r.get('error') or r.get('response', 'Unknown error')]; [None] stands for
    Python's [None]. *)
Definition error_msg (r : Outcome.t) : option string :=
  match Outcome.detail r with
  | error "" => Some "Unknown error"
  | error m => Some m
  | response body => body
  end.

(** What [print_statistics] prints, section by section.  A section that is
    skipped is [None]. *)
Record Report : Type := {
  success_count : Z;
  failed_count : Z;
  total : Z;
  success_percent : Q;
  failed_percent : Q;
  status_lines : list (Z * Z);
  type_lines : list (string * Z);
  unique_idcards : Z;
  idcards_with_duplicates : Z;
  merge_total : Z;
  top_idcards : option (list (string * Z));
  failed_lines : option (list (Z * string * option string))
}.

Definition print_statistics (results : list Outcome.t) (events : list Event)
  : result Report :=
  let success_count := len (filter Outcome.success results) in
  let failed_count := len results - success_count in
  let status_codes := count_keys Z.eqb (map Outcome.status_code results) in
  let type_dist := count_keys String.eqb (map type events) in
  let idcard_count :=
    count_keys String.eqb (map (fun e => idcard (traits e)) events) in
  let duplicate_idcards :=
    filter (fun kv => 1 <? snd kv) (items idcard_count) in
  match percent success_count (len results),
        percent failed_count (len results) with
  | Raise e, _ => Raise e
  | Ok _, Raise e => Raise e
  | Ok sp, Ok fp =>
      Ok {|
        success_count := success_count;
        failed_count := failed_count;
        total := len results;
        success_percent := sp;
        failed_percent := fp;
        status_lines := sorted item_le (items status_codes);
        type_lines := sorted count_ge (items type_dist);
        unique_idcards := len idcard_count;
        idcards_with_duplicates := len duplicate_idcards;
        merge_total := sum (values duplicate_idcards);
        top_idcards :=
          match duplicate_idcards with
          | [] => None
          | _ => Some (firstn 10 (sorted count_ge (items duplicate_idcards)))
          end;
        failed_lines :=
          if 0 <? failed_count
          then Some (map (fun r => (Outcome.index r,
                                    slice_to 10 (Outcome.idcard r),
                                    error_msg r))
                         (firstn 10 (filter (fun r => negb (Outcome.success r))
                                            results)))
          else None
      |}
  end.


(* ================================================================== *)
(** * Notions used in the statements *)
(* ================================================================== *)

(** The request [send_event] posts for an event. *)
Definition request_of (event : Event) (config : Config) : Request :=
  {| url := API_URL config;
     json := event;
     headers := [("Content-Type", "application/json");
                 ("X-API-Key", API_KEY config)];
     timeout := 10 |}.

(** A world whose endpoint answers the next request with [r]. *)
Definition world_answering (r : HttpResult) : World :=
  {| random := []; fake := {| locale := fun _ _ => ""; generator := [] |};
     clock := []; endpoint := [fun _ => r] |}.

(** The same world once the endpoint has nothing more to say. *)
Definition world_silent : World :=
  {| random := []; fake := {| locale := fun _ _ => ""; generator := [] |};
     clock := []; endpoint := [] |}.

(** An event of a given type and idcard; the other fields are fixed. *)
Definition event_of (ty id : string) : Event :=
  {| type := ty; user_id := "user_desktop_00001";
     traits := {| full_name := "Nguyen An"; first_name := "An";
                  last_name := "Nguyen"; idcard := id;
                  old_idcard := "123456789"; phone := "0900000000";
                  email := "an@example.org"; gender := "other";
                  dob := "1990-01-01"; address := "Ha Noi";
                  religion := "None" |};
     platforms := {| os := "iOS"; device := "iPad"; browser := "Safari";
                     app_version := "1.0.0" |};
     campaign := {| utm_source := "direct"; utm_campaign := "none";
                    utm_medium := "organic" |};
     metadata := {| first_seen_at := 1699560620; last_seen_at := 1699906220;
                    registration_source := "api"; user_agent := "Mozilla/5.0";
                    login_count := 1 |} |}.

Definition sample_event : Event := event_of "login" "100000000007".

(** A world whose endpoint answers the coming requests with [rs], in turn. *)
Definition world_answering_all (rs : list HttpResult) : World :=
  {| random := []; fake := {| locale := fun _ _ => ""; generator := [] |};
     clock := []; endpoint := map (fun r _ => r) rs |}.


(** [sent_in_order config start events w outcomes w']: the outcomes are those
    of sending the events one after the other, numbered from [start], each
    send beginning in the world the previous one left. *)
Inductive sent_in_order (config : Config)
  : Z -> list Event -> World -> list Outcome.t -> World -> Prop :=
| sent_none start w : sent_in_order config start [] w [] w
| sent_next start event events w o w1 outcomes w' :
    send_event event start config w = (Ok o, w1) ->
    sent_in_order config (start + 1) events w1 outcomes w' ->
    sent_in_order config start (event :: events) w (o :: outcomes) w'.

(** The distinct values of a list, and how often a value occurs in it. *)
Definition distinct (l : list string) : list string := nodup string_dec l.
Definition occurrences (l : list string) (s : string) : nat :=
  count_occ string_dec l s.

(** The idcards of a list of events. *)
Definition idcards (events : list Event) : list string :=
  map (fun e => idcard (traits e)) events.

(** The texts [fake.random_int(min=100000000000, max=100000000095)] can
    render to. *)
Definition idcard_candidates : list string :=
  map str (range 100000000000 100000000096).

(** How often a key occurs in a list, as a Python [int]. *)
Definition tally {K} (eq_dec : forall a b : K, {a = b} + {a <> b})
  (ks : list K) (k : K) : Z :=
  Z.of_nat (count_occ eq_dec ks k).

(** The values that occur more than once in a list. *)
Definition duplicated (l : list string) : list string :=
  filter (fun s => (1 <? occurrences l s)%nat) (distinct l).

(** The end-to-end scenario: ten events with the idcards A (five times), B
    (three times) and C (twice), and one outcome to report on. *)
Definition scenario_events : list Event :=
  map (event_of "login") (repeat "A" 5 ++ repeat "B" 3 ++ repeat "C" 2).

Definition scenario_results : list Outcome.t :=
  [{| Outcome.index := 1; Outcome.status_code := 200;
      Outcome.success := true; Outcome.idcard := "A";
      Outcome.type := "login"; Outcome.detail := response None |}].

(** A computation that leaves the endpoint alone, whatever it returns. *)
Definition offline {A} (m : M A) : Prop :=
  forall w r w', m w = (r, w') -> endpoint w' = endpoint w.

(** A world with given values to come from module [random] and from the
    clock, a quiet [fake] and no endpoint. *)
Definition world_drawing (draws readings : list Z) : World :=
  {| random := draws; fake := {| locale := fun _ _ => ""; generator := [] |};
     clock := readings; endpoint := [] |}.

(** [int(s)] for a decimal text, with leading zeros allowed. *)
Definition int_of_str (s : string) : option Z :=
  option_map Z.of_int (NilZero.int_of_string s).

(** [s] without the prefix [p], when it starts with it. *)
Fixpoint strip_prefix (p s : string) : option string :=
  match p, s with
  | EmptyString, _ => Some s
  | String a p', String b s' =>
      if Ascii.eqb a b then strip_prefix p' s' else None
  | String _ _, EmptyString => None
  end.

(** The number a user id ends with: what follows [user_desktop_],
    [user_mobile_] or [user_tablet_]. *)
Definition user_id_number (uid : string) : option Z :=
  match strip_prefix "user_desktop_" uid with
  | Some digits => int_of_str digits
  | None =>
      match strip_prefix "user_mobile_" uid with
      | Some digits => int_of_str digits
      | None =>
          match strip_prefix "user_tablet_" uid with
          | Some digits => int_of_str digits
          | None => None
          end
      end
  end.

(** An outcome under another index. *)
Definition renumber (d : Z) (o : Outcome.t) : Outcome.t :=
  {| Outcome.index := Outcome.index o + d;
     Outcome.status_code := Outcome.status_code o;
     Outcome.success := Outcome.success o;
     Outcome.idcard := Outcome.idcard o;
     Outcome.type := Outcome.type o;
     Outcome.detail := Outcome.detail o |}.

(** An outcome with a given index, status code and success flag. *)
Definition outcome_of (i status : Z) (ok : bool) : Outcome.t :=
  {| Outcome.index := i; Outcome.status_code := status;
     Outcome.success := ok; Outcome.idcard := "100000000007";
     Outcome.type := "login"; Outcome.detail := response None |}.

(* ================================================================== *)
(** * MAIN *)
(* ================================================================== *)

(** The pools and the events of [main]. *)
Definition main_events (config : Config) : M (list Event) :=
  idcard_pool <- make_idcard_pool (NUM_UNIQUE_IDCARDS config) ;;
  old_idcard_pool <- make_old_idcard_pool (NUM_UNIQUE_IDCARDS config) ;;
  generate_events (NUM_EVENTS config) idcard_pool old_idcard_pool.

(** [main] with [--mode sequential], from the pools to the report: the
    events are generated, sent one after the other and summarised.  What
    [main] writes to the console and to the two optional JSON files, and
    the time it measures around the sends, are outside this embedding. *)
Definition main_sequential (config : Config) : M Report :=
  events <- main_events config ;;
  results <- send_events_sequential events config ;;
  lift (print_statistics results events).


(* ================================================================== *)
(** * Reasoning about the monad *)
(* ================================================================== *)

Lemma bind_ok_inv {A B} (m : M A) (k : A -> M B) w b w' :
  bind m k w = (Ok b, w') ->
  exists a w1, m w = (Ok a, w1) /\ k a w1 = (Ok b, w').
Proof.
  unfold bind. destruct (m w) as [[a | e] w1]; intros H.
  - exists a, w1. split; [reflexivity | exact H].
  - discriminate H.
Qed.

Lemma bind_ok_intro {A B} (m : M A) (k : A -> M B) w a w1 b w' :
  m w = (Ok a, w1) -> k a w1 = (Ok b, w') -> bind m k w = (Ok b, w').
Proof. intros Hm Hk. unfold bind. rewrite Hm. exact Hk. Qed.

Lemma ret_ok_inv {A} (a b : A) (w w' : World) :
  ret a w = (Ok b, w') -> a = b /\ w = w'.
Proof. unfold ret. intros H. inversion H. split; reflexivity. Qed.

Lemma lift_ok_inv {A} (r : result A) (w w' : World) a :
  lift r w = (Ok a, w') -> r = Ok a /\ w = w'.
Proof. unfold lift. intros H. inversion H. split; reflexivity. Qed.

(* ================================================================== *)
(** * The dispatcher: one send *)
(* ================================================================== *)

Lemma send_event_on_response event index config w status text w' :
  requests_post (request_of event config) w = (Ok (status, text), w') ->
  send_event event index config w =
    (Ok {| Outcome.index := index;
           Outcome.status_code := status;
           Outcome.success := contains [200; 201] status;
           Outcome.idcard := idcard (traits event);
           Outcome.type := type event;
           Outcome.detail :=
             response (if 400 <=? status then Some (slice_to 200 text)
                       else None) |}, w').
Proof.
  intros H. unfold send_event, try_except, bind.
  fold (request_of event config). rewrite H. reflexivity.
Qed.

Lemma contains_200_201 status :
  contains [200; 201] status = true <-> status = 200 \/ status = 201.
Proof.
  unfold contains. simpl. rewrite !orb_true_iff, !Z.eqb_eq. intuition discriminate.
Qed.

(** C1: when the endpoint answers a send with an HTTP response, the outcome
    carries that response's status code, and its success flag is true if and
    only if the status code is 200 or 201; so every other 2xx status (202,
    204, ...) gives success = false. *)
Theorem send_event_success_iff_200_or_201 event index config w status text w' :
  requests_post (request_of event config) w = (Ok (status, text), w') ->
  exists o,
    send_event event index config w = (Ok o, w') /\
    Outcome.status_code o = status /\
    (Outcome.success o = true <-> status = 200 \/ status = 201) /\
    (200 <= status <= 299 -> status <> 200 -> status <> 201 ->
     Outcome.success o = false).
Proof.
  intros H. eexists. split; [apply send_event_on_response; exact H |].
  cbn [Outcome.status_code Outcome.success].
  split; [reflexivity |]. split; [apply contains_200_201 |].
  intros _ H200 H201. apply not_true_is_false. rewrite contains_200_201. tauto.
Qed.

Lemma send_event_success_iff_200_or_201_witness :
  exists o,
    send_event sample_event 1 default_Config
               (world_answering (Response 202 "Accepted")) =
      (Ok o, world_silent) /\
    Outcome.status_code o = 202 /\ Outcome.success o = false.
Proof.
  destruct (send_event_success_iff_200_or_201 sample_event 1 default_Config
              (world_answering (Response 202 "Accepted")) 202 "Accepted"
              world_silent eq_refl) as (o & Hsend & Hcode & _ & H2xx).
  exists o. split; [exact Hsend |]. split; [exact Hcode |].
  apply H2xx; lia.
Defined.

Lemma send_event_on_fault event index config w e w' :
  requests_post (request_of event config) w = (Raise e, w') ->
  send_event event index config w =
    (Ok {| Outcome.index := index;
           Outcome.status_code := 0;
           Outcome.success := false;
           Outcome.idcard := idcard (traits event);
           Outcome.type := type event;
           Outcome.detail := error (str_exn e) |}, w').
Proof.
  intros H. unfold send_event, try_except, bind.
  fold (request_of event config). rewrite H. reflexivity.
Qed.

(** [send_event] returns an outcome in every world. *)
Lemma send_event_returns event index config w :
  exists o w', send_event event index config w = (Ok o, w').
Proof.
  destruct (requests_post (request_of event config) w) as [[[s t] | e] w'] eqn:H.
  - eexists _, w'. apply send_event_on_response. exact H.
  - eexists _, w'. apply send_event_on_fault. exact H.
Qed.

(** C2: when the HTTP call raises an exception [e], [send_event] does not
    raise: it returns an outcome with status code 0, success false, the text
    [str(e)] under the key [error], and the idcard and type of the event. *)
Theorem send_event_captures_fault event index config w e w' :
  requests_post (request_of event config) w = (Raise e, w') ->
  exists o,
    send_event event index config w = (Ok o, w') /\
    Outcome.index o = index /\
    Outcome.status_code o = 0 /\
    Outcome.success o = false /\
    Outcome.detail o = error (str_exn e) /\
    Outcome.idcard o = idcard (traits event) /\
    Outcome.type o = type event.
Proof.
  intros H. eexists. split; [apply send_event_on_fault; exact H |].
  cbn. repeat split.
Qed.

Lemma send_event_captures_fault_witness :
  exists o,
    send_event sample_event 4 default_Config
               (world_answering (Fault (ConnectionError "timed out"))) =
      (Ok o, world_silent) /\
    Outcome.status_code o = 0 /\
    Outcome.success o = false /\
    Outcome.detail o = error "timed out" /\
    Outcome.idcard o = "100000000007" /\
    Outcome.type o = "login".
Proof.
  destruct (send_event_captures_fault sample_event 4 default_Config
              (world_answering (Fault (ConnectionError "timed out")))
              (ConnectionError "timed out") world_silent eq_refl)
    as (o & Hsend & _ & Hcode & Hsucc & Hdet & Hid & Hty).
  exists o. repeat split; assumption.
Defined.

(** C4 as stated fails: a 304 answer is outside the 2xx range, yet the
    outcome keeps nothing of its body. *)
Lemma non_2xx_body_not_always_kept :
  ~ (forall event index config w status text w',
       requests_post (request_of event config) w = (Ok (status, text), w') ->
       ~ (200 <= status <= 299) ->
       exists o,
         send_event event index config w = (Ok o, w') /\
         Outcome.detail o = response (Some (slice_to 200 text))).
Proof.
  intros claim.
  destruct (claim sample_event 1 default_Config
              (world_answering (Response 304 "Not Modified")) 304
              "Not Modified" world_silent eq_refl ltac:(lia))
    as (o & Hsend & Hdet).
  cbv in Hsend. inversion Hsend; subst o. discriminate Hdet.
Qed.

(** C4, amended: the outcome of a send answered with a status code of 400 or
    more keeps the first 200 characters of the response body under the key
    [response]; for every status code below 400 (the 2xx ones, and also 1xx
    and 3xx) the value under that key is [None]. *)
Theorem send_event_keeps_body_from_400 event index config w status text w' :
  requests_post (request_of event config) w = (Ok (status, text), w') ->
  exists o,
    send_event event index config w = (Ok o, w') /\
    (400 <= status ->
     Outcome.detail o = response (Some (slice_to 200 text))) /\
    (status < 400 -> Outcome.detail o = response None).
Proof.
  intros H. eexists. split; [apply send_event_on_response; exact H |].
  cbn [Outcome.detail]. split; intros Hs.
  - apply Z.leb_le in Hs. rewrite Hs. reflexivity.
  - apply Z.leb_gt in Hs. rewrite Hs. reflexivity.
Qed.

Lemma send_event_keeps_body_from_400_witness :
  exists o,
    send_event sample_event 2 default_Config
               (world_answering (Response 404 "Not Found")) =
      (Ok o, world_silent) /\
    Outcome.detail o = response (Some "Not Found").
Proof.
  destruct (send_event_keeps_body_from_400 sample_event 2 default_Config
              (world_answering (Response 404 "Not Found")) 404 "Not Found"
              world_silent eq_refl) as (o & Hsend & Hkept & _).
  exists o. split; [exact Hsend |]. apply Hkept. lia.
Defined.

(** [s[:200]] is a prefix of [s] of at most 200 characters, and all of [s]
    when [s] is that short. *)
Lemma slice_to_length n s :
  String.length (slice_to n s) = Nat.min n (String.length s).
Proof.
  revert s. induction n as [| n IH]; intros [| c s]; simpl; try reflexivity.
  rewrite IH. reflexivity.
Qed.

Lemma slice_to_prefix n s : exists rest, s = slice_to n s ++ rest.
Proof.
  revert s. induction n as [| n IH]; intros s.
  - exists s. reflexivity.
  - destruct s as [| c s].
    + exists "". reflexivity.
    + destruct (IH s) as [rest Hrest]. exists rest. simpl.
      rewrite <- Hrest. reflexivity.
Qed.

(* ================================================================== *)
(** * The dispatcher: sequential mode *)
(* ================================================================== *)

Lemma send_event_echo event index config w o w' :
  send_event event index config w = (Ok o, w') ->
  Outcome.index o = index /\
  Outcome.idcard o = idcard (traits event) /\
  Outcome.type o = type event.
Proof.
  intros H.
  destruct (requests_post (request_of event config) w) as [[[s t] | e] w1] eqn:Hp.
  - rewrite (send_event_on_response _ index _ _ _ _ _ Hp) in H.
    inversion H; subst. cbn. repeat split.
  - rewrite (send_event_on_fault _ index _ _ _ _ Hp) in H.
    inversion H; subst. cbn. repeat split.
Qed.

Lemma for_each_send config events :
  forall start acc w,
  exists outcomes w',
    for_each
      (fun (item : Z * Event) results =>
         let (i, event) := item in
         result <- send_event event i config ;;
         _ <- time_sleep ;;
         ret (results ++ [result])%list)
      (enumerate events start) acc w = (Ok (acc ++ outcomes)%list, w') /\
    sent_in_order config start events w outcomes w'.
Proof.
  induction events as [| event events IH]; intros start acc w.
  - exists [], w. split; [| constructor].
    cbn. unfold ret. rewrite app_nil_r. reflexivity.
  - destruct (send_event_returns event start config w) as (o & w1 & Hsend).
    destruct (IH (start + 1) (acc ++ [o])%list w1) as (outcomes & w' & Hloop & Hord).
    exists (o :: outcomes), w'. split.
    + cbn [enumerate for_each].
      eapply bind_ok_intro; [| rewrite Hloop, <- app_assoc; reflexivity].
      eapply bind_ok_intro; [exact Hsend |]. reflexivity.
    + econstructor; eassumption.
Qed.

Lemma sent_in_order_length config start events w outcomes w' :
  sent_in_order config start events w outcomes w' ->
  List.length outcomes = List.length events.
Proof. induction 1; simpl; congruence. Qed.

Lemma sent_in_order_nth config start events w outcomes w' :
  sent_in_order config start events w outcomes w' ->
  forall i event,
    nth_error events i = Some event ->
    exists o wi wi',
      nth_error outcomes i = Some o /\
      send_event event (start + Z.of_nat i) config wi = (Ok o, wi').
Proof.
  induction 1 as [| start ev events w o w1 outcomes w' Hsend _ IH];
    intros i event Hi.
  - destruct i; discriminate Hi.
  - destruct i as [| i].
    + inversion Hi; subst. exists o, w, w1. split; [reflexivity |].
      rewrite Z.add_0_r. exact Hsend.
    + destruct (IH i event Hi) as (o' & wi & wi' & Hnth & Hs).
      exists o', wi, wi'. split; [exact Hnth |].
      replace (start + Z.of_nat (S i)) with (start + 1 + Z.of_nat i) by lia.
      exact Hs.
Qed.

(* ================================================================== *)
(** * The generator: primitive steps *)
(* ================================================================== *)

Lemma randint_range a b g n g' :
  randint a b g = (Ok n, g') -> a <= n <= b.
Proof.
  unfold randint. destruct (b <? a) eqn:Hba; [discriminate |].
  apply Z.ltb_ge in Hba. cbn. intros H. inversion H; subst.
  pose proof (Z.mod_pos_bound (hd 0 g) (b - a + 1)). lia.
Qed.

Lemma randint_returns a b g :
  a <= b -> randint a b g = (Ok (a + hd 0 g mod (b - a + 1)), tl g).
Proof.
  intros Hab. unfold randint. apply Z.ltb_ge in Hab. rewrite Hab. reflexivity.
Qed.

Lemma random_randint_range a b w n w' :
  random_randint a b w = (Ok n, w') -> a <= n <= b.
Proof.
  unfold random_randint, with_random.
  destruct (randint a b (random w)) as [r g] eqn:Hr. intros H.
  inversion H; subst. eapply randint_range; exact Hr.
Qed.

Lemma random_randint_returns a b w :
  a <= b -> exists n w', random_randint a b w = (Ok n, w').
Proof.
  intros Hab. unfold random_randint, with_random.
  rewrite (randint_returns a b _ Hab). eexists _, _. reflexivity.
Qed.

Lemma random_choice_returns {A} (l : list A) w :
  l <> [] -> exists x w', random_choice l w = (Ok x, w').
Proof.
  intros Hl. destruct l as [| d l]; [contradiction |].
  unfold random_choice, with_random, choice. cbn. eexists _, _. reflexivity.
Qed.

Lemma fake_text_returns p w : exists s w', fake_text p w = (Ok s, w').
Proof. unfold fake_text, with_fake. cbn. eexists _, _. reflexivity. Qed.

Lemma fake_random_int_range lo hi w n w' :
  fake_random_int lo hi w = (Ok n, w') -> lo <= n <= hi.
Proof.
  unfold fake_random_int, with_fake.
  destruct (randint lo hi (generator (fake w))) as [r g] eqn:Hr. intros H.
  inversion H; subst. eapply randint_range; exact Hr.
Qed.

Lemma fake_random_int_returns lo hi w :
  lo <= hi -> exists n w', fake_random_int lo hi w = (Ok n, w').
Proof.
  intros Hab. unfold fake_random_int, with_fake.
  rewrite (randint_returns lo hi _ Hab). eexists _, _. reflexivity.
Qed.

Lemma datetime_now_range w d w' :
  datetime_now w = (Ok d, w') -> 0 <= d <= datetime_max.
Proof.
  unfold datetime_now, next. intros H.
  assert (Hmax : datetime_max = 253402300799999999) by reflexivity.
  injection H as Hd _. subst d. rewrite Hmax.
  pose proof (Z.mod_pos_bound (hd 0 (clock w)) 253402300800000000). lia.
Qed.

Lemma datetime_now_returns w : exists d w', datetime_now w = (Ok d, w').
Proof. unfold datetime_now. cbn. eexists _, _. reflexivity. Qed.

Lemma datetime_sub_ok d delta r :
  datetime_sub d delta = Ok r -> r = d - delta.
Proof.
  unfold datetime_sub.
  destruct ((d - delta <? datetime_min) || (datetime_max <? d - delta));
    intros H; [discriminate | inversion H; reflexivity].
Qed.

Lemma datetime_sub_returns d delta :
  datetime_min <= d - delta <= datetime_max ->
  datetime_sub d delta = Ok (d - delta).
Proof.
  intros [Hlo Hhi]. unfold datetime_sub.
  apply Z.ltb_ge in Hlo. apply Z.ltb_ge in Hhi. rewrite Hlo, Hhi. reflexivity.
Qed.

Lemma getitem_in {A} (l : list A) i x : getitem l i = Ok x -> In x l.
Proof.
  unfold getitem.
  destruct (((if i <? 0 then i + len l else i) <? 0)
            || (len l <=? (if i <? 0 then i + len l else i))); [discriminate |].
  destruct (nth_error l _) as [y |] eqn:Hn; [| discriminate].
  intros H. inversion H; subst. eapply nth_error_In; exact Hn.
Qed.

Lemma getitem_returns {A} (l : list A) i :
  0 <= i < len l -> exists x, getitem l i = Ok x.
Proof.
  intros [Hlo Hhi]. unfold getitem, len in *. cbv zeta.
  destruct (i <? 0) eqn:Hneg; [apply Z.ltb_lt in Hneg; lia |].
  rewrite Hneg.
  destruct (Z.of_nat (List.length l) <=? i) eqn:Hb;
    [apply Z.leb_le in Hb; lia |].
  cbn [orb].
  destruct (nth_error l (Z.to_nat i)) as [x |] eqn:Hn.
  - exists x. reflexivity.
  - apply nth_error_None in Hn. lia.
Qed.

Lemma timedelta_bounds days hours minutes :
  0 <= days <= 30 -> 0 <= hours <= 23 -> 0 <= minutes <= 59 ->
  0 <= timedelta days hours minutes < 31 * us_per_day.
Proof.
  intros Hd Hh Hm.
  unfold timedelta, us_per_day, us_per_hour, us_per_minute, us_per_second.
  cbn. lia.
Qed.


(** Unfolds a successful run of a [bind] chain into its steps. *)
Ltac bind_steps H :=
  repeat (let a := fresh "v" in
          let w1 := fresh "w" in
          let Hstep := fresh "Hstep" in
          apply bind_ok_inv in H as (a & w1 & Hstep & H)).

(* ================================================================== *)
(** * The generator: it returns an event *)
(* ================================================================== *)

Lemma bind_returns {A B} (m : M A) (k : A -> M B) w a w1 :
  m w = (Ok a, w1) ->
  (exists b w', k a w1 = (Ok b, w')) ->
  exists b w', bind m k w = (Ok b, w').
Proof.
  intros Hm (b & w' & Hk). exists b, w'. eapply bind_ok_intro; eassumption.
Qed.

Ltac run_randint :=
  match goal with
  | |- exists _ _, bind (random_randint ?a ?b) _ ?w = _ =>
      let n := fresh "n" in
      let w1 := fresh "w" in
      let H := fresh "Hn" in
      destruct (random_randint_returns a b w ltac:(lia)) as (n & w1 & H);
      apply (bind_returns _ _ _ _ _ H);
      apply random_randint_range in H; cbv beta zeta
  end.

Ltac run_choice :=
  match goal with
  | |- exists _ _, bind (random_choice ?l) _ ?w = _ =>
      let x := fresh "x" in
      let w1 := fresh "w" in
      let H := fresh "Hx" in
      destruct (random_choice_returns l w ltac:(discriminate)) as (x & w1 & H);
      apply (bind_returns _ _ _ _ _ H); clear H; cbv beta zeta
  end.

Ltac run_fake :=
  match goal with
  | |- exists _ _, bind (fake_text ?p) _ ?w = _ =>
      let x := fresh "s" in
      let w1 := fresh "w" in
      let H := fresh "Hs" in
      destruct (fake_text_returns p w) as (x & w1 & H);
      apply (bind_returns _ _ _ _ _ H); clear H; cbv beta zeta
  end.

Ltac run_lift H :=
  match goal with
  | |- exists _ _, bind (lift ?r) _ ?w = _ =>
      match type of H with
      | _ = Ok ?a =>
          apply (bind_returns (lift r) _ w a w);
          [unfold lift; rewrite H; reflexivity | cbv beta zeta]
      end
  end.

Lemma generate_event_returns index idcard_pool old_idcard_pool w :
  idcard_pool <> [] ->
  (List.length idcard_pool <= List.length old_idcard_pool)%nat ->
  exists event w',
    generate_event index idcard_pool old_idcard_pool w = (Ok event, w').
Proof.
  intros Hne Hlen. unfold generate_event.
  assert (Hpos : 0 < len idcard_pool).
  { unfold len. destruct idcard_pool; [contradiction | simpl; lia]. }
  run_randint.
  destruct (getitem_returns idcard_pool n ltac:(lia)) as (id & Hid).
  run_lift Hid.
  destruct (getitem_returns old_idcard_pool n) as (old & Hold).
  { unfold len in *. lia. }
  run_lift Hold.
  do 3 run_randint.
  destruct (datetime_now_returns w3) as (now & w4 & Hnow).
  apply (bind_returns _ _ _ _ _ Hnow). apply datetime_now_range in Hnow.
  cbv beta zeta.
  pose proof (timedelta_bounds n0 n1 n2 ltac:(lia) ltac:(lia) ltac:(lia)) as Htd.
  assert (Hmin : datetime_min = - (719162 * us_per_day)) by reflexivity.
  assert (Hday : us_per_day = 86400000000) by reflexivity.
  pose proof (datetime_sub_returns now (timedelta n0 n1 n2) ltac:(lia)) as Het.
  run_lift Het.
  run_randint.
  assert (Hfd : 0 <= timedelta n3 0 0 <= 365 * us_per_day).
  { unfold timedelta. lia. }
  pose proof (datetime_sub_returns (now - timedelta n0 n1 n2)
                (timedelta n3 0 0) ltac:(lia)) as Hfs.
  run_lift Hfs.
  do 2 run_fake. do 2 run_choice. do 2 run_fake. run_choice. do 2 run_fake.
  do 4 run_choice. do 3 run_randint. do 4 run_choice. run_fake. run_randint.
  eexists _, _. reflexivity.
Qed.

Lemma generate_event_idcard_in_pool index idcard_pool old_idcard_pool w event w' :
  generate_event index idcard_pool old_idcard_pool w = (Ok event, w') ->
  In (idcard (traits event)) idcard_pool.
Proof.
  intros H. unfold generate_event in H. bind_steps H.
  apply ret_ok_inv in H as [Hev _]. subst event. cbn [traits idcard].
  match goal with
  | Hs : lift (getitem idcard_pool _) _ = (Ok ?x, _) |- In ?x _ =>
      apply lift_ok_inv in Hs as [Hs _]; eapply getitem_in; exact Hs
  end.
Qed.

Lemma random_randint_clock a b w r w' :
  random_randint a b w = (r, w') -> clock w' = clock w.
Proof.
  unfold random_randint, with_random.
  destruct (randint a b (random w)) as [r0 g]. intros H.
  injection H as _ <-. reflexivity.
Qed.

Lemma datetime_now_reading w d w' :
  datetime_now w = (Ok d, w') -> d = hd 0 (clock w) mod (datetime_max + 1).
Proof. unfold datetime_now, next. intros H. injection H as <- _. reflexivity. Qed.

(** How old [last_seen_at] can be: it is the clock reading minus [days_ago]
    days (at most 30), [hours_ago] hours and [minutes_ago] minutes, that is
    less than 31 days. *)
Lemma generate_event_last_seen_offset index idcard_pool old_idcard_pool w
      event w' :
  generate_event index idcard_pool old_idcard_pool w = (Ok event, w') ->
  exists offset,
    0 <= offset < 31 * us_per_day /\
    last_seen_at (metadata event) =
      strftime_seconds (hd 0 (clock w) mod (datetime_max + 1) - offset).
Proof.
  intros H. unfold generate_event in H. bind_steps H.
  apply ret_ok_inv in H as [Hev _]. subst event. cbn [metadata last_seen_at].
  repeat match goal with
  | Hs : lift _ _ = (Ok _, _) |- _ => apply lift_ok_inv in Hs as [Hs <-]
  end.
  match goal with
  | Hi : random_randint 0 (len idcard_pool - 1) w = (Ok _, ?wa),
    Hd : random_randint 0 30 ?wa = (Ok ?d, ?wb),
    Hh : random_randint 0 23 ?wb = (Ok ?h, ?wc),
    Hm : random_randint 0 59 ?wc = (Ok ?m, ?wd),
    Hn : datetime_now ?wd = (Ok ?now, _),
    Hs : datetime_sub ?now (timedelta ?d ?h ?m) = Ok ?t |- _ =>
      exists (timedelta d h m); split;
      [ apply timedelta_bounds; eapply random_randint_range; eassumption
      | apply datetime_sub_ok in Hs; apply datetime_now_reading in Hn;
        apply random_randint_clock in Hi, Hd, Hh, Hm;
        subst t now; congruence ]
  end.
Qed.

(** With the draws 30, 23 and 59 the event was last seen 30 days, 23 hours
    and 59 minutes before the clock reading. *)
Example last_seen_30_days_23_hours_59_minutes_ago :
  exists event w',
    generate_event 1 ["100000000001"] ["111111111"]
      {| random := [0; 30; 23; 59];
         fake := {| locale := fun _ _ => ""; generator := [] |};
         clock := [1700000000 * us_per_second];
         endpoint := [] |} = (Ok event, w') /\
    last_seen_at (metadata event) =
      1700000000 - (30 * 86400 + 23 * 3600 + 59 * 60).
Proof. eexists _, _. split; vm_compute; reflexivity. Qed.








(* ================================================================== *)
(** * Comprehensions, ranges and counting *)
(* ================================================================== *)

Lemma range_length lo hi : List.length (range lo hi) = Z.to_nat (hi - lo).
Proof. unfold range. rewrite length_map, length_seq. reflexivity. Qed.

Lemma range_in lo hi v : In v (range lo hi) <-> lo <= v < hi.
Proof.
  unfold range. rewrite in_map_iff. split.
  - intros (k & Hk & Hin). apply in_seq in Hin. lia.
  - intros Hv. exists (Z.to_nat (v - lo)). split; [lia |].
    apply in_seq. lia.
Qed.

Lemma comprehension_returns {A B} (f : A -> M B) (l : list A) :
  (forall x w, In x l -> exists y w', f x w = (Ok y, w')) ->
  forall w, exists ys w', comprehension f l w = (Ok ys, w').
Proof.
  induction l as [| x l IH]; intros Hf w.
  - exists [], w. reflexivity.
  - destruct (Hf x w (or_introl eq_refl)) as (y & w1 & Hy).
    destruct (IH (fun x' w' Hin => Hf x' w' (or_intror Hin)) w1)
      as (ys & w' & Hys).
    exists (y :: ys), w'. cbn [comprehension].
    eapply bind_ok_intro; [exact Hy |].
    eapply bind_ok_intro; [exact Hys |]. reflexivity.
Qed.

Lemma comprehension_ok_inv {A B} (f : A -> M B) (l : list A) :
  forall w ys w',
    comprehension f l w = (Ok ys, w') ->
    Forall2 (fun x y => exists w1 w2, f x w1 = (Ok y, w2)) l ys.
Proof.
  induction l as [| x l IH]; intros w ys w' H.
  - apply ret_ok_inv in H as [<- _]. constructor.
  - cbn [comprehension] in H.
    apply bind_ok_inv in H as (y & w1 & Hy & H).
    apply bind_ok_inv in H as (ys' & w2 & Hys & H).
    apply ret_ok_inv in H as [<- _].
    constructor; [exists w, w1; exact Hy | eapply IH; exact Hys].
Qed.

Lemma Forall2_right {A B} (R : A -> B -> Prop) (P : B -> Prop) l ys :
  Forall2 R l ys -> (forall x y, In x l -> R x y -> P y) ->
  List.length ys = List.length l /\ Forall P ys.
Proof.
  induction 1 as [| x y l ys Hxy _ IH]; intros HP.
  - split; [reflexivity | constructor].
  - destruct (IH (fun x' y' Hin => HP x' y' (or_intror Hin))) as [Hlen Hall].
    split; [simpl; congruence |].
    constructor; [eapply HP; [left; reflexivity | exact Hxy] | exact Hall].
Qed.

(** A list either has no repetition or has a value occurring twice. *)
Lemma NoDup_or_repeated (l : list string) :
  NoDup l \/ exists s, In s l /\ (2 <= occurrences l s)%nat.
Proof.
  unfold occurrences. induction l as [| a l IH].
  - left. constructor.
  - destruct (in_dec string_dec a l) as [Hin | Hnin].
    + right. exists a. split; [left; reflexivity |].
      apply (count_occ_In string_dec) in Hin.
      rewrite count_occ_cons_eq by reflexivity. lia.
    + destruct IH as [Hnd | (s & Hs & Hc)].
      * left. constructor; assumption.
      * right. exists s. split; [right; exact Hs |].
        simpl. destruct (string_dec a s); lia.
Qed.

(** The pigeonhole principle on occurrence counts. *)
Lemma pigeonhole_occurrences (l pool : list string) :
  incl l pool -> (List.length pool < List.length l)%nat ->
  exists s, In s l /\ (2 <= occurrences l s)%nat.
Proof.
  intros Hincl Hlt. destruct (NoDup_or_repeated l) as [Hnd | Hrep].
  - pose proof (NoDup_incl_length Hnd Hincl). lia.
  - exact Hrep.
Qed.

Lemma distinct_length_le (l pool : list string) :
  incl l pool -> (List.length (distinct l) <= List.length pool)%nat.
Proof.
  intros Hincl. unfold distinct. apply NoDup_incl_length.
  - apply NoDup_nodup.
  - intros s Hs. apply Hincl. apply nodup_In in Hs. exact Hs.
Qed.

(* ================================================================== *)
(** * The identity pool of [main] *)
(* ================================================================== *)

Lemma idcard_candidates_length : List.length idcard_candidates = 96%nat.
Proof. unfold idcard_candidates. rewrite length_map, range_length. reflexivity. Qed.

Lemma idcard_candidates_in s :
  In s idcard_candidates <->
  exists v, 100000000000 <= v <= 100000000095 /\ s = str v.
Proof.
  unfold idcard_candidates. rewrite in_map_iff. split.
  - intros (v & Hs & Hv). apply range_in in Hv. exists v. split; [lia | auto].
  - intros (v & Hv & Hs). exists v. split; [auto | apply range_in; lia].
Qed.

(** C10: [main] always obtains its idcard pool; every entry is the decimal
    text of an integer between 100000000000 and 100000000095, so the pool
    has at most 96 distinct values whatever size is configured, and a pool
    of configured size above 96 has a value that occurs at least twice. *)
Theorem make_idcard_pool_at_most_96_values n w :
  exists pool w',
    make_idcard_pool n w = (Ok pool, w') /\
    List.length pool = Z.to_nat n /\
    (forall s, In s pool ->
       exists v, 100000000000 <= v <= 100000000095 /\ s = str v) /\
    (List.length (distinct pool) <= 96)%nat /\
    (96 < n -> exists s, In s pool /\ (2 <= occurrences pool s)%nat).
Proof.
  destruct (comprehension_returns
              (fun _ : Z => v <- fake_random_int 100000000000 100000000095 ;;
                            ret (str v))
              (range 0 n)) with (w := w) as (pool & w' & Hrun).
  { intros x w0 _.
    destruct (fake_random_int_returns 100000000000 100000000095 w0 ltac:(lia))
      as (v & w1 & Hv).
    exists (str v), w1. eapply bind_ok_intro; [exact Hv | reflexivity]. }
  exists pool, w'. split; [exact Hrun |].
  apply comprehension_ok_inv in Hrun.
  destruct (Forall2_right _ (fun s => In s idcard_candidates) _ _ Hrun)
    as [Hlen Hall].
  { intros x s _ (w1 & w2 & Hs).
    apply bind_ok_inv in Hs as (v & w3 & Hv & Hs).
    apply ret_ok_inv in Hs as [<- _]. apply fake_random_int_range in Hv.
    apply idcard_candidates_in. exists v. split; [exact Hv | reflexivity]. }
  rewrite range_length, Z.sub_0_r in Hlen. rewrite Forall_forall in Hall.
  split; [exact Hlen |]. split; [| split].
  - intros s Hs. apply idcard_candidates_in. apply Hall. exact Hs.
  - rewrite <- idcard_candidates_length. apply distinct_length_le. exact Hall.
  - intros Hn. apply (pigeonhole_occurrences pool idcard_candidates Hall).
    rewrite idcard_candidates_length, Hlen. lia.
Qed.

Lemma make_idcard_pool_at_most_96_values_witness :
  exists pool w',
    make_idcard_pool 97 (world_answering_all []) = (Ok pool, w') /\
    List.length pool = 97%nat /\
    exists s, In s pool /\ (2 <= occurrences pool s)%nat.
Proof.
  destruct (make_idcard_pool_at_most_96_values 97 (world_answering_all []))
    as (pool & w' & Hrun & Hlen & _ & _ & Hdup).
  exists pool, w'. split; [exact Hrun |]. split; [exact Hlen |].
  apply Hdup. lia.
Defined.

(* ================================================================== *)
(** * The generator: identities of the generated events *)
(* ================================================================== *)

Lemma generate_events_returns n idcard_pool old_idcard_pool w :
  idcard_pool <> [] ->
  (List.length idcard_pool <= List.length old_idcard_pool)%nat ->
  exists events w',
    generate_events n idcard_pool old_idcard_pool w = (Ok events, w').
Proof.
  intros Hne Hlen. unfold generate_events. apply comprehension_returns.
  intros i w0 _. apply generate_event_returns; assumption.
Qed.

Lemma generate_events_idcards n idcard_pool old_idcard_pool w events w' :
  generate_events n idcard_pool old_idcard_pool w = (Ok events, w') ->
  List.length events = Z.to_nat n /\ incl (idcards events) idcard_pool.
Proof.
  intros H. unfold generate_events in H. apply comprehension_ok_inv in H.
  destruct (Forall2_right _ (fun e => In (idcard (traits e)) idcard_pool) _ _ H)
    as [Hlen Hall].
  { intros i e _ (w1 & w2 & He).
    eapply generate_event_idcard_in_pool; exact He. }
  rewrite range_length in Hlen. split; [rewrite Hlen; f_equal; lia |].
  rewrite Forall_forall in Hall. intros s Hs. unfold idcards in Hs.
  apply in_map_iff in Hs as (e & <- & He). apply Hall. exact He.
Qed.

(** C3 as stated fails: with a pool of two different idcards and three
    events, the random indices may all be the same, and then the events
    carry one distinct idcard, not two. *)
Lemma distinct_idcards_may_be_fewer_than_pool :
  ~ (forall idcard_pool old_idcard_pool n w events w',
       len idcard_pool < n ->
       generate_events n idcard_pool old_idcard_pool w = (Ok events, w') ->
       List.length (distinct (idcards events)) = List.length idcard_pool).
Proof.
  intros claim.
  destruct (generate_events 3 ["100000000000"; "100000000001"]
              ["111111111"; "222222222"] (world_answering_all []))
    as [[events | e] w'] eqn:Hgen; [| vm_compute in Hgen; discriminate Hgen].
  specialize (claim ["100000000000"; "100000000001"]
                    ["111111111"; "222222222"] 3 (world_answering_all [])
                    events w' ltac:(reflexivity) Hgen).
  vm_compute in Hgen. injection Hgen as <- _.
  vm_compute in claim. discriminate claim.
Qed.

(** C3, amended: when [N > K] events are generated from an identity pool of
    size [K], every event carries an idcard of the pool, the number of
    distinct idcards across the events is at least 1 and at most [K] (it is
    not always [K]), and at least one idcard occurs in more than one
    event. *)
Theorem generated_idcards_at_most_pool_size idcard_pool old_idcard_pool n w
        events w' :
  len idcard_pool < n ->
  generate_events n idcard_pool old_idcard_pool w = (Ok events, w') ->
  List.length events = Z.to_nat n /\
  incl (idcards events) idcard_pool /\
  (1 <= List.length (distinct (idcards events)) <= List.length idcard_pool)%nat /\
  exists s, In s (idcards events) /\ (2 <= occurrences (idcards events) s)%nat.
Proof.
  intros Hn Hgen. unfold len in Hn.
  destruct (generate_events_idcards _ _ _ _ _ _ Hgen) as [Hlen Hincl].
  split; [exact Hlen |]. split; [exact Hincl |]. split; [split |].
  - destruct events as [| e events]; [simpl in Hlen; lia |].
    assert (Hin : In (idcard (traits e)) (distinct (idcards (e :: events)))).
    { apply nodup_In. left. reflexivity. }
    destruct (distinct (idcards (e :: events))); [destruct Hin | simpl; lia].
  - apply distinct_length_le. exact Hincl.
  - apply (pigeonhole_occurrences _ idcard_pool Hincl).
    unfold idcards. rewrite length_map. lia.
Qed.

Lemma generated_idcards_at_most_pool_size_witness :
  exists events w',
    generate_events 3 ["100000000000"; "100000000001"]
      ["111111111"; "222222222"] (world_answering_all []) = (Ok events, w') /\
    List.length events = 3%nat /\
    (1 <= List.length (distinct (idcards events)) <= 2)%nat /\
    exists s, In s (idcards events) /\ (2 <= occurrences (idcards events) s)%nat.
Proof.
  destruct (generate_events 3 ["100000000000"; "100000000001"]
              ["111111111"; "222222222"] (world_answering_all []))
    as [[events | e] w'] eqn:Hgen; [| vm_compute in Hgen; discriminate Hgen].
  destruct (generated_idcards_at_most_pool_size
              ["100000000000"; "100000000001"] ["111111111"; "222222222"] 3
              (world_answering_all []) events w'
              ltac:(reflexivity) Hgen) as (Hlen & _ & Hdistinct & Hrep).
  exists events, w'. split; [reflexivity |].
  repeat split; try assumption; apply Hdistinct.
Defined.

(* ================================================================== *)
(** * Where generation and statistics return *)
(* ================================================================== *)

Lemma len_nonempty {A} (l : list A) : l <> [] -> (len l =? 0) = false.
Proof.
  intros Hl. apply Z.eqb_neq. unfold len.
  destruct l; [contradiction | simpl; lia].
Qed.

Lemma print_statistics_returns results events :
  results <> [] -> exists report, print_statistics results events = Ok report.
Proof.
  intros Hne. unfold print_statistics, percent.
  rewrite (len_nonempty results Hne). eexists. reflexivity.
Qed.

(** With no outcome at all the percentages divide by zero. *)
Lemma print_statistics_empty_raises events :
  print_statistics [] events = Raise (ZeroDivisionError "division by zero").
Proof. reflexivity. Qed.

(** An empty pool leaves [random.randint(0, -1)] nothing to draw. *)
Lemma generate_event_empty_pool_raises index old_idcard_pool w :
  generate_event index [] old_idcard_pool w =
    (Raise (ValueError "empty range for randrange()"), w).
Proof. destruct w. reflexivity. Qed.

(** C9 as stated fails: generation does not succeed for every pool, since an
    empty pool makes it raise. *)
Lemma generation_and_statistics_not_total :
  ~ ((forall index idcard_pool old_idcard_pool w,
        exists event w',
          generate_event index idcard_pool old_idcard_pool w = (Ok event, w')) /\
     (forall results events,
        exists report, print_statistics results events = Ok report)).
Proof.
  intros [Hgen _].
  destruct (Hgen 1 [] [] (world_answering_all [])) as (event & w' & H).
  rewrite generate_event_empty_pool_raises in H. discriminate H.
Qed.

(** C9, amended: [generate_event] returns an event for every index whenever
    the idcard pool is not empty and the old-idcard pool is at least as
    long, and [print_statistics] returns its report for every non-empty list
    of outcomes and every list of events, the empty one included. *)
Theorem generation_and_statistics_return :
  (forall index idcard_pool old_idcard_pool w,
     idcard_pool <> [] ->
     (List.length idcard_pool <= List.length old_idcard_pool)%nat ->
     exists event w',
       generate_event index idcard_pool old_idcard_pool w = (Ok event, w')) /\
  (forall results events,
     results <> [] ->
     exists report, print_statistics results events = Ok report).
Proof.
  split.
  - intros index idcard_pool old_idcard_pool w. apply generate_event_returns.
  - apply print_statistics_returns.
Qed.

Lemma generation_and_statistics_return_witness :
  (exists event w',
     generate_event 1 ["100000000000"] ["111111111"] (world_answering_all []) =
       (Ok event, w')) /\
  (exists report,
     print_statistics
       [{| Outcome.index := 1; Outcome.status_code := 200;
           Outcome.success := true; Outcome.idcard := "100000000000";
           Outcome.type := "login"; Outcome.detail := response None |}] [] =
       Ok report).
Proof.
  destruct generation_and_statistics_return as [Hgen Hstat]. split.
  - apply Hgen; [discriminate | simpl; lia].
  - apply Hstat. discriminate.
Defined.

(* ================================================================== *)
(** * Sums *)
(* ================================================================== *)

Lemma fold_add_shift (l : list Z) (a : Z) :
  fold_left Z.add l a = a + fold_left Z.add l 0.
Proof.
  revert a. induction l as [| x l IH]; intros a; simpl; [lia |].
  rewrite (IH (a + x)), (IH x). lia.
Qed.

Lemma sum_nil : sum [] = 0.
Proof. reflexivity. Qed.

Lemma sum_cons x l : sum (x :: l) = x + sum l.
Proof. unfold sum. simpl. apply fold_add_shift. Qed.

Lemma sum_app l1 l2 : sum (l1 ++ l2) = sum l1 + sum l2.
Proof.
  induction l1 as [| x l1 IH]; cbn [app]; [rewrite sum_nil; lia |].
  rewrite !sum_cons, IH. lia.
Qed.

Lemma sum_Permutation l1 l2 : Permutation l1 l2 -> sum l1 = sum l2.
Proof.
  induction 1; rewrite ?sum_cons in *; lia.
Qed.

(* ================================================================== *)
(** * Dictionaries and histograms *)
(* ================================================================== *)

Section DictFacts.
Context {K : Type} (eq_dec : forall a b : K, {a = b} + {a <> b}).
Context (eqb : K -> K -> bool).
Hypothesis eqb_eq : forall a b, eqb a b = true <-> a = b.

Lemma eqb_same k : eqb k k = true.
Proof. apply eqb_eq. reflexivity. Qed.

Lemma eqb_differ a b : a <> b -> eqb a b = false.
Proof. intros H. apply not_true_is_false. rewrite eqb_eq. exact H. Qed.

Lemma get_set_same {V} (d : dict (K:=K) (V:=V)) k v default :
  get eqb (set eqb d k v) k default = v.
Proof.
  induction d as [| [k' v'] d IH]; simpl.
  - rewrite eqb_same. reflexivity.
  - destruct (eqb k' k) eqn:E; simpl; rewrite E; [reflexivity | exact IH].
Qed.

Lemma get_set_other {V} (d : dict (K:=K) (V:=V)) k v k' default :
  k <> k' -> get eqb (set eqb d k v) k' default = get eqb d k' default.
Proof.
  intros Hne. induction d as [| [k0 v0] d IH]; simpl.
  - rewrite (eqb_differ _ _ Hne). reflexivity.
  - destruct (eqb k0 k) eqn:E; simpl.
    + apply eqb_eq in E. subst k0. rewrite (eqb_differ _ _ Hne). reflexivity.
    + destruct (eqb k0 k'); [reflexivity | exact IH].
Qed.

Lemma keys_set_in {V} (d : dict (K:=K) (V:=V)) k v :
  In k (keys d) -> keys (set eqb d k v) = keys d.
Proof.
  unfold keys. induction d as [| [k0 v0] d IH]; simpl; intros Hin.
  - destruct Hin.
  - destruct (eqb k0 k) eqn:E; simpl; [reflexivity |].
    f_equal. apply IH. destruct Hin as [-> | Hin]; [| exact Hin].
    rewrite eqb_same in E. discriminate E.
Qed.

Lemma keys_set_notin {V} (d : dict (K:=K) (V:=V)) k v :
  ~ In k (keys d) -> keys (set eqb d k v) = (keys d ++ [k])%list.
Proof.
  unfold keys. induction d as [| [k0 v0] d IH]; simpl; intros Hnin.
  - reflexivity.
  - destruct (eqb k0 k) eqn:E; simpl.
    + apply eqb_eq in E. tauto.
    + f_equal. apply IH. tauto.
Qed.

Lemma sum_values_set (d : dict (K:=K) (V:=Z)) k :
  sum (values (set eqb d k (get eqb d k 0 + 1))) = sum (values d) + 1.
Proof.
  unfold values. induction d as [| [k0 v0] d IH]; simpl.
  - reflexivity.
  - destruct (eqb k0 k); simpl; rewrite !sum_cons; [lia | rewrite IH; lia].
Qed.

(** In a dictionary without repeated keys each item is what [get] finds. *)
Lemma get_of_item {V} (d : dict (K:=K) (V:=V)) k v default :
  NoDup (keys d) -> In (k, v) d -> get eqb d k default = v.
Proof.
  unfold keys. induction d as [| [k0 v0] d IH]; simpl; intros Hnd Hin.
  - destruct Hin.
  - inversion Hnd as [| ? ? Hnin Hnd']; subst.
    destruct Hin as [Heq | Hin].
    + inversion Heq; subst. rewrite eqb_same. reflexivity.
    + destruct (eqb k0 k) eqn:E; [| apply IH; assumption].
      apply eqb_eq in E. subst k0. exfalso. apply Hnin.
      apply in_map_iff. exists (k, v). split; [reflexivity | exact Hin].
Qed.

Lemma item_of_key {V} (d : dict (K:=K) (V:=V)) k default :
  In k (keys d) -> In (k, get eqb d k default) d.
Proof.
  unfold keys. induction d as [| [k0 v0] d IH]; simpl; intros Hin.
  - destruct Hin.
  - destruct (eqb k0 k) eqn:E.
    + apply eqb_eq in E. subst k0. left. reflexivity.
    + right. apply IH. destruct Hin as [-> | Hin]; [| exact Hin].
      rewrite eqb_same in E. discriminate E.
Qed.

(** The histogram loop, started from any dictionary without repeated keys. *)
Lemma histogram_loop (ks : list K) :
  forall d : dict (K:=K) (V:=Z),
    NoDup (keys d) ->
    let d' := fold_left (fun d k => set eqb d k (get eqb d k 0 + 1)) ks d in
    NoDup (keys d') /\
    (forall k, get eqb d' k 0 = get eqb d k 0 + tally eq_dec ks k) /\
    (forall k, In k (keys d') <-> In k (keys d) \/ In k ks) /\
    sum (values d') = sum (values d) + len ks.
Proof.
  unfold tally, len. induction ks as [| k0 ks IH]; intros d Hnd; cbn zeta.
  - simpl. repeat split; try assumption; try lia; tauto.
  - cbn [fold_left].
    assert (Hnd1 : NoDup (keys (set eqb d k0 (get eqb d k0 0 + 1)))).
    { destruct (in_dec eq_dec k0 (keys d)) as [Hin | Hnin].
      - rewrite keys_set_in by exact Hin. exact Hnd.
      - rewrite keys_set_notin by exact Hnin.
        apply NoDup_app; [exact Hnd | repeat constructor; intros [] |].
        intros x Hx [<- | []]. tauto. }
    destruct (IH _ Hnd1) as (Hnd' & Hget & Hkeys & Hsum).
    split; [exact Hnd' |]. split; [| split].
    + intros k. rewrite Hget. simpl count_occ.
      destruct (eq_dec k0 k) as [-> | Hne].
      * rewrite get_set_same. lia.
      * rewrite get_set_other by exact Hne. lia.
    + intros k. rewrite Hkeys.
      destruct (in_dec eq_dec k0 (keys d)) as [Hin | Hnin].
      * rewrite keys_set_in by exact Hin. simpl.
        split; [tauto |]. intros [H | [<- | H]]; tauto.
      * rewrite keys_set_notin by exact Hnin. rewrite in_app_iff. simpl. tauto.
    + rewrite Hsum, sum_values_set.
      change (List.length (k0 :: ks)) with (S (List.length ks)). lia.
Qed.

(** The histogram of a list of keys. *)
Lemma count_keys_spec (ks : list K) :
  NoDup (keys (count_keys eqb ks)) /\
  (forall k, get eqb (count_keys eqb ks) k 0 = tally eq_dec ks k) /\
  (forall k, In k (keys (count_keys eqb ks)) <-> In k ks) /\
  sum (values (count_keys eqb ks)) = len ks.
Proof.
  destruct (histogram_loop ks [] (NoDup_nil K)) as (Hnd & Hget & Hkeys & Hsum).
  unfold count_keys. split; [exact Hnd |]. split; [| split].
  - intros k. rewrite Hget. reflexivity.
  - intros k. rewrite Hkeys. simpl. tauto.
  - rewrite Hsum. reflexivity.
Qed.

Lemma count_keys_item (ks : list K) k v :
  In (k, v) (count_keys eqb ks) <-> In k ks /\ v = tally eq_dec ks k.
Proof.
  destruct (count_keys_spec ks) as (Hnd & Hget & Hkeys & _). split.
  - intros Hin. split.
    + apply Hkeys. unfold keys. apply in_map_iff. exists (k, v). auto.
    + rewrite <- Hget. symmetry. apply get_of_item; assumption.
  - intros [Hin ->]. rewrite <- Hget. apply item_of_key. apply Hkeys. exact Hin.
Qed.

End DictFacts.

(* ================================================================== *)
(** * [sorted] *)
(* ================================================================== *)

Section SortFacts.
Context {A : Type} (le : A -> A -> bool).

Lemma insert_Permutation x l : Permutation (insert le x l) (x :: l).
Proof.
  induction l as [| y l IH]; simpl; [apply Permutation_refl |].
  destruct (le x y); [apply Permutation_refl |].
  eapply perm_trans; [apply perm_skip; exact IH | apply perm_swap].
Qed.

Lemma sorted_Permutation l : Permutation (sorted le l) l.
Proof.
  unfold sorted. induction l as [| x l IH]; simpl; [constructor |].
  eapply perm_trans; [apply insert_Permutation | apply perm_skip; exact IH].
Qed.

Hypothesis le_total : forall x y, le x y = true \/ le y x = true.
Hypothesis le_trans :
  forall x y z, le x y = true -> le y z = true -> le x z = true.

Lemma insert_StronglySorted x l :
  StronglySorted (fun a b => le a b = true) l ->
  StronglySorted (fun a b => le a b = true) (insert le x l).
Proof.
  induction 1 as [| y l Hs IH Hall]; simpl.
  - repeat constructor.
  - destruct (le x y) eqn:Hxy.
    + constructor; [constructor; assumption |].
      constructor; [exact Hxy |].
      eapply Forall_impl; [| exact Hall]. intros z Hyz.
      eapply le_trans; eassumption.
    + constructor; [exact IH |].
      rewrite Forall_forall in *. intros z Hz.
      apply (Permutation_in _ (insert_Permutation x l)) in Hz.
      destruct Hz as [<- | Hz]; [| apply Hall; exact Hz].
      destruct (le_total x y) as [H | H]; [congruence | exact H].
Qed.

Lemma sorted_StronglySorted l :
  StronglySorted (fun a b => le a b = true) (sorted le l).
Proof.
  unfold sorted. induction l as [| x l IH]; simpl; [constructor |].
  apply insert_StronglySorted. exact IH.
Qed.

End SortFacts.

(** Sorting by descending count is stable: the items of one count keep the
    order they had. *)
Lemma insert_count_ge_same_count {K} (c : Z) (x : K * Z) l :
  filter (fun kv => snd kv =? c) (insert count_ge x l) =
  filter (fun kv => snd kv =? c) (x :: l).
Proof.
  induction l as [| y l IH]; [reflexivity |].
  cbn [insert]. destruct (count_ge x y) eqn:Hxy; [reflexivity |].
  cbn [filter] in *. rewrite IH.
  destruct (snd y =? c) eqn:Hy, (snd x =? c) eqn:Hx; try reflexivity.
  apply Z.eqb_eq in Hx, Hy. unfold count_ge in Hxy.
  apply Z.leb_gt in Hxy. lia.
Qed.

Lemma sorted_count_ge_stable {K} (c : Z) (l : list (K * Z)) :
  filter (fun kv => snd kv =? c) (sorted count_ge l) =
  filter (fun kv => snd kv =? c) l.
Proof.
  unfold sorted. induction l as [| x l IH]; [reflexivity |].
  cbn [fold_right]. rewrite insert_count_ge_same_count.
  cbn [filter]. rewrite IH. reflexivity.
Qed.

Lemma StronglySorted_app_inv {A} (R : A -> A -> Prop) l1 l2 :
  StronglySorted R (l1 ++ l2) ->
  StronglySorted R l1 /\ forall x y, In x l1 -> In y l2 -> R x y.
Proof.
  induction l1 as [| a l1 IH]; simpl; intros H.
  - split; [constructor | intros x y []].
  - inversion H as [| ? ? Hs Hall]; subst.
    destruct (IH Hs) as [Hs1 Hcross]. rewrite Forall_forall in Hall. split.
    + constructor; [exact Hs1 |]. rewrite Forall_forall. intros z Hz.
      apply Hall. apply in_or_app. left. exact Hz.
    + intros x y [<- | Hx] Hy; [| apply Hcross; assumption].
      apply Hall. apply in_or_app. right. exact Hy.
Qed.

Lemma NoDup_app_left {A} (l1 l2 : list A) : NoDup (l1 ++ l2) -> NoDup l1.
Proof.
  induction l1 as [| a l1 IH]; simpl; intros H; [constructor |].
  inversion H as [| ? ? Hnin Hnd]; subst. constructor; [| apply IH; exact Hnd].
  intros Hin. apply Hnin. apply in_or_app. left. exact Hin.
Qed.

Lemma NoDup_map_filter {A B} (f : A -> B) (p : A -> bool) l :
  NoDup (map f l) -> NoDup (map f (filter p l)).
Proof.
  induction l as [| a l IH]; simpl; intros H; [constructor |].
  inversion H as [| ? ? Hnin Hnd]; subst.
  destruct (p a); simpl; [| apply IH; exact Hnd].
  constructor; [| apply IH; exact Hnd].
  intros Hin. apply Hnin. apply in_map_iff in Hin as (x & Hx & Hin).
  apply filter_In in Hin as [Hin _].
  apply in_map_iff. exists x. split; assumption.
Qed.

Lemma Permutation_filter_both {A} (p : A -> bool) l1 l2 :
  Permutation l1 l2 -> Permutation (filter p l1) (filter p l2).
Proof.
  induction 1 as [| x l1 l2 _ IH | x y l | l1 l2 l3 _ IH1 _ IH2]; simpl.
  - constructor.
  - destruct (p x); [apply perm_skip |]; exact IH.
  - destruct (p x), (p y); try apply Permutation_refl. apply perm_swap.
  - eapply perm_trans; eassumption.
Qed.

Lemma filter_ext_in_list {A} (p q : A -> bool) l :
  (forall x, In x l -> p x = q x) -> filter p l = filter q l.
Proof.
  induction l as [| a l IH]; simpl; intros H; [reflexivity |].
  rewrite (H a (or_introl eq_refl)), IH; [reflexivity |].
  intros x Hx. apply H. right. exact Hx.
Qed.

(** A dictionary without repeated keys lists each key with what [get]
    finds for it. *)
Lemma dict_items_by_get {K V} (eqb : K -> K -> bool) (d : dict (K:=K) (V:=V))
      default :
  (forall a b, eqb a b = true <-> a = b) ->
  NoDup (keys d) ->
  items d = map (fun k => (k, get eqb d k default)) (keys d).
Proof.
  intros eqb_eq. unfold items, keys.
  induction d as [| [k v] d IH]; simpl; intros Hnd; [reflexivity |].
  inversion Hnd as [| ? ? Hnin Hnd']; subst.
  rewrite (eqb_same eqb eqb_eq). f_equal.
  rewrite (IH Hnd') at 1. apply map_ext_in. intros k' Hk'.
  rewrite (eqb_differ eqb eqb_eq k k'); [reflexivity |].
  intros ->. apply Hnin. exact Hk'.
Qed.

(* ================================================================== *)
(** * The statistics: histograms of the report *)
(* ================================================================== *)

Lemma tally_occurrences ids s :
  tally string_dec ids s = Z.of_nat (occurrences ids s).
Proof. reflexivity. Qed.

Lemma tally_gt_1 ids s :
  (1 <? tally string_dec ids s) = (1 <? occurrences ids s)%nat.
Proof.
  rewrite tally_occurrences.
  destruct (1 <? occurrences ids s)%nat eqn:E.
  - apply Nat.ltb_lt in E. apply Z.ltb_lt. lia.
  - apply Nat.ltb_ge in E. apply Z.ltb_ge. lia.
Qed.

Lemma idcard_keys_Permutation ids :
  Permutation (keys (count_keys String.eqb ids)) (distinct ids).
Proof.
  destruct (count_keys_spec string_dec String.eqb String.eqb_eq ids)
    as (Hnd & _ & Hkeys & _).
  apply NoDup_Permutation; [exact Hnd | apply NoDup_nodup |].
  intros s. rewrite Hkeys. unfold distinct. rewrite nodup_In. tauto.
Qed.

(** The items of the idcard histogram that count more than one event. *)
Lemma duplicate_items ids :
  filter (fun kv : string * Z => 1 <? snd kv)
         (items (count_keys String.eqb ids)) =
  map (fun s => (s, tally string_dec ids s))
      (filter (fun s => (1 <? occurrences ids s)%nat)
              (keys (count_keys String.eqb ids))).
Proof.
  destruct (count_keys_spec string_dec String.eqb String.eqb_eq ids)
    as (Hnd & Hget & _ & _).
  rewrite (dict_items_by_get String.eqb _ 0 String.eqb_eq Hnd).
  rewrite (map_ext _ (fun s => (s, tally string_dec ids s)))
    by (intros s; rewrite Hget; reflexivity).
  rewrite filter_map_swap. f_equal. apply filter_ext_in_list.
  intros s _. apply tally_gt_1.
Qed.

Lemma duplicate_keys_Permutation ids :
  Permutation
    (filter (fun s => (1 <? occurrences ids s)%nat)
            (keys (count_keys String.eqb ids)))
    (duplicated ids).
Proof.
  unfold duplicated. apply Permutation_filter_both, idcard_keys_Permutation.
Qed.

Lemma duplicate_items_length ids :
  List.length (filter (fun kv : string * Z => 1 <? snd kv)
                      (items (count_keys String.eqb ids))) =
  List.length (duplicated ids).
Proof.
  rewrite duplicate_items, length_map.
  apply Permutation_length, duplicate_keys_Permutation.
Qed.

Lemma duplicate_items_sum ids :
  sum (values (filter (fun kv : string * Z => 1 <? snd kv)
                      (items (count_keys String.eqb ids)))) =
  sum (map (fun s => Z.of_nat (occurrences ids s)) (duplicated ids)).
Proof.
  rewrite duplicate_items. unfold values. rewrite map_map. cbn [snd].
  apply sum_Permutation, Permutation_map, duplicate_keys_Permutation.
Qed.

Lemma item_le_total a b : item_le a b = true \/ item_le b a = true.
Proof.
  unfold item_le. destruct a as [a1 a2], b as [b1 b2]. cbn [fst snd].
  rewrite !orb_true_iff, !andb_true_iff, !Z.ltb_lt, !Z.eqb_eq, !Z.leb_le. lia.
Qed.

Lemma count_ge_total {K} (a b : K * Z) :
  count_ge a b = true \/ count_ge b a = true.
Proof. unfold count_ge. rewrite !Z.leb_le. lia. Qed.

Lemma count_ge_trans {K} (a b c : K * Z) :
  count_ge a b = true -> count_ge b c = true -> count_ge a c = true.
Proof. unfold count_ge. rewrite !Z.leb_le. lia. Qed.

(** The identities of the end-to-end scenario: three values occurring 5, 3
    and 2 times. *)
Lemma scenario_occurrences ids A B C :
  A <> B -> A <> C -> B <> C ->
  Permutation ids (repeat A 5 ++ repeat B 3 ++ repeat C 2) ->
  occurrences ids A = 5%nat /\ occurrences ids B = 3%nat /\
  occurrences ids C = 2%nat /\ Permutation (distinct ids) [A; B; C].
Proof.
  intros HAB HAC HBC Hperm. unfold occurrences.
  rewrite !(proj1 (Permutation_count_occ string_dec _ _) Hperm).
  repeat split.
  - simpl. repeat (destruct (string_dec _ _); try congruence).
  - simpl. repeat (destruct (string_dec _ _); try congruence).
  - simpl. repeat (destruct (string_dec _ _); try congruence).
  - apply NoDup_Permutation.
    + apply NoDup_nodup.
    + repeat constructor; simpl; intuition congruence.
    + intros s. unfold distinct. rewrite nodup_In. split.
      * intros Hs. apply (Permutation_in _ Hperm) in Hs. simpl in Hs. simpl.
        intuition.
      * intros Hs. apply (Permutation_in _ (Permutation_sym Hperm)).
        simpl in *. intuition.
Qed.

Lemma scenario_duplicated ids A B C :
  A <> B -> A <> C -> B <> C ->
  Permutation ids (repeat A 5 ++ repeat B 3 ++ repeat C 2) ->
  Permutation (duplicated ids) [A; B; C].
Proof.
  intros HAB HAC HBC Hperm.
  destruct (scenario_occurrences ids A B C HAB HAC HBC Hperm)
    as (HA & HB & HC & Hd).
  unfold duplicated.
  eapply perm_trans; [apply Permutation_filter_both; exact Hd |].
  simpl. rewrite HA, HB, HC. apply Permutation_refl.
Qed.

(* ================================================================== *)
(** * The statistics: the report *)
(* ================================================================== *)

Lemma print_statistics_ok results events report :
  print_statistics results events = Ok report ->
  let status_codes := count_keys Z.eqb (map Outcome.status_code results) in
  let type_dist := count_keys String.eqb (map type events) in
  let idcard_count := count_keys String.eqb (idcards events) in
  let duplicate_idcards :=
    filter (fun kv : string * Z => 1 <? snd kv) (items idcard_count) in
  total report = len results /\
  status_lines report = sorted item_le (items status_codes) /\
  type_lines report = sorted count_ge (items type_dist) /\
  unique_idcards report = len idcard_count /\
  idcards_with_duplicates report = len duplicate_idcards /\
  merge_total report = sum (values duplicate_idcards) /\
  top_idcards report =
    match duplicate_idcards with
    | [] => None
    | _ => Some (firstn 10 (sorted count_ge (items duplicate_idcards)))
    end.
Proof.
  unfold print_statistics. fold (idcards events).
  destruct (percent _ _) as [sp | e]; [| discriminate].
  destruct (percent _ _) as [fp | e]; [| discriminate].
  intros H. injection H as <-. cbn. repeat split.
Qed.

Lemma sorted_histogram_lines {K} (eq_dec : forall a b : K, {a = b} + {a <> b})
      (eqb : K -> K -> bool) (le : K * Z -> K * Z -> bool) (ks : list K) :
  (forall a b, eqb a b = true <-> a = b) ->
  let lines := sorted le (items (count_keys eqb ks)) in
  sum (map snd lines) = len ks /\
  NoDup (map fst lines) /\
  (forall k n, In (k, n) lines <-> In k ks /\ n = tally eq_dec ks k).
Proof.
  intros eqb_eq lines.
  destruct (count_keys_spec eq_dec eqb eqb_eq ks) as (Hnd & _ & _ & Hsum).
  pose proof (sorted_Permutation le (items (count_keys eqb ks))) as Hperm.
  fold lines in Hperm. split; [| split].
  - rewrite <- Hsum. apply sum_Permutation, Permutation_map. exact Hperm.
  - eapply Permutation_NoDup; [| exact Hnd].
    apply Permutation_map, Permutation_sym. exact Hperm.
  - intros k n. rewrite <- (count_keys_item eq_dec eqb eqb_eq). split.
    + apply Permutation_in. exact Hperm.
    + apply Permutation_in, Permutation_sym. exact Hperm.
Qed.

(** C5: for every non-empty list of outcomes and every list of events the
    report is printed, and in it the counts of the status-code lines add up
    to the number of outcomes, the counts of the event-type lines add up to
    the number of events, and the merge total is the sum of the occurrence
    counts of exactly the idcards that occur in more than one event; each
    line carries the number of occurrences of its key.  For ten events whose
    idcards are A five times, B three times and C twice, the report has 3
    unique idcards, 3 idcards with duplicates and a merge total of 10. *)
Theorem print_statistics_totals results events :
  results <> [] ->
  exists report,
    print_statistics results events = Ok report /\
    sum (map snd (status_lines report)) = len results /\
    (forall code n,
       In (code, n) (status_lines report) <->
       In code (map Outcome.status_code results) /\
       n = tally Z.eq_dec (map Outcome.status_code results) code) /\
    sum (map snd (type_lines report)) = len events /\
    (forall ty n,
       In (ty, n) (type_lines report) <->
       In ty (map type events) /\ n = tally string_dec (map type events) ty) /\
    unique_idcards report = len (distinct (idcards events)) /\
    idcards_with_duplicates report = len (duplicated (idcards events)) /\
    merge_total report =
      sum (map (fun s => Z.of_nat (occurrences (idcards events) s))
               (duplicated (idcards events))) /\
    (forall A B C,
       A <> B -> A <> C -> B <> C ->
       Permutation (idcards events) (repeat A 5 ++ repeat B 3 ++ repeat C 2) ->
       unique_idcards report = 3 /\
       idcards_with_duplicates report = 3 /\
       merge_total report = 10).
Proof.
  intros Hne. destruct (print_statistics_returns results events Hne) as [report Hrun].
  exists report. split; [exact Hrun |].
  destruct (print_statistics_ok _ _ _ Hrun)
    as (_ & Hstatus & Htypes & Hunique & Hdups & Hmerge & _).
  destruct (sorted_histogram_lines Z.eq_dec Z.eqb item_le
              (map Outcome.status_code results) Z.eqb_eq) as (Hs1 & _ & Hs2).
  destruct (sorted_histogram_lines string_dec String.eqb count_ge
              (map type events) String.eqb_eq) as (Ht1 & _ & Ht2).
  rewrite <- Hstatus in Hs1, Hs2. rewrite <- Htypes in Ht1, Ht2.
  assert (Hu : unique_idcards report = len (distinct (idcards events))).
  { rewrite Hunique. unfold len. f_equal.
    rewrite <- (Permutation_length (idcard_keys_Permutation _)).
    unfold keys. rewrite length_map. reflexivity. }
  assert (Hd : idcards_with_duplicates report
               = len (duplicated (idcards events))).
  { rewrite Hdups. unfold len. f_equal. apply duplicate_items_length. }
  assert (Hm : merge_total report =
               sum (map (fun s => Z.of_nat (occurrences (idcards events) s))
                        (duplicated (idcards events)))).
  { rewrite Hmerge. apply duplicate_items_sum. }
  unfold len in Hs1, Ht1. rewrite length_map in Hs1, Ht1.
  fold (len results) in Hs1. fold (len events) in Ht1.
  repeat (split; [assumption |]).
  intros A B C HAB HAC HBC Hperm.
  destruct (scenario_occurrences _ A B C HAB HAC HBC Hperm)
    as (HA & HB & HC & Hdistinct).
  pose proof (scenario_duplicated _ A B C HAB HAC HBC Hperm) as Hdup.
  rewrite Hu, Hd, Hm. unfold len.
  rewrite (Permutation_length Hdistinct), (Permutation_length Hdup).
  rewrite (sum_Permutation _ _ (Permutation_map _ Hdup)).
  cbn [map]. rewrite HA, HB, HC. repeat split.
Qed.

Lemma print_statistics_totals_witness :
  exists report,
    print_statistics scenario_results scenario_events = Ok report /\
    unique_idcards report = 3 /\
    idcards_with_duplicates report = 3 /\
    merge_total report = 10.
Proof.
  destruct (print_statistics_totals scenario_results scenario_events
              ltac:(discriminate))
    as (report & Hrun & _ & _ & _ & _ & _ & _ & _ & Hscenario).
  exists report. split; [exact Hrun |].
  apply (Hscenario "A" "B" "C"); try discriminate.
  apply Permutation_refl.
Defined.

(* ================================================================== *)
(** * The statistics: the most frequent idcards *)
(* ================================================================== *)

Lemma duplicated_In ids s :
  In s (duplicated ids) <-> In s ids /\ (2 <= occurrences ids s)%nat.
Proof.
  unfold duplicated, distinct. rewrite filter_In, nodup_In, Nat.ltb_lt.
  split; intros [Hin Hc]; (split; [exact Hin | lia]).
Qed.

Lemma duplicate_item_In ids s c :
  In (s, c) (filter (fun kv : string * Z => 1 <? snd kv)
                    (items (count_keys String.eqb ids))) <->
  In s (duplicated ids) /\ c = Z.of_nat (occurrences ids s).
Proof.
  rewrite filter_In. unfold items.
  rewrite (count_keys_item string_dec String.eqb String.eqb_eq).
  rewrite duplicated_In, tally_occurrences. cbn [snd]. rewrite Z.ltb_lt.
  split.
  - intros [[Hin ->] Hc]. repeat split; [exact Hin | lia].
  - intros [[Hin Hc] ->]. repeat split; [exact Hin | lia].
Qed.

Lemma duplicate_items_NoDup ids :
  NoDup (map fst (filter (fun kv : string * Z => 1 <? snd kv)
                         (items (count_keys String.eqb ids)))).
Proof.
  apply NoDup_map_filter.
  apply (count_keys_spec string_dec String.eqb String.eqb_eq ids).
Qed.

(** The first [n] items of a list sorted by descending count. *)
Lemma firstn_sorted_by_count (n : nat) (l : list (string * Z)) :
  let top := firstn n (sorted count_ge l) in
  List.length top = Nat.min n (List.length l) /\
  (NoDup (map fst l) -> NoDup (map fst top)) /\
  incl top l /\
  StronglySorted (fun a b => snd b <= snd a) top /\
  (forall x, In x l -> ~ In x top ->
     forall y, In y top -> snd x <= snd y) /\
  ((List.length l <= n)%nat -> incl l top).
Proof.
  intros top.
  pose proof (sorted_Permutation count_ge l) as Hperm.
  pose proof (sorted_StronglySorted count_ge count_ge_total count_ge_trans l)
    as Hsorted.
  pose proof (firstn_skipn n (sorted count_ge l)) as Hsplit.
  fold top in Hsplit. rewrite <- Hsplit in Hsorted.
  apply StronglySorted_app_inv in Hsorted as [Htop Hcross].
  split; [| split; [| split; [| split; [| split]]]].
  - unfold top. rewrite length_firstn, (Permutation_length Hperm). reflexivity.
  - intros Hnd. apply (NoDup_app_left _ (map fst (skipn n (sorted count_ge l)))).
    rewrite <- map_app, Hsplit.
    eapply Permutation_NoDup; [| exact Hnd].
    apply Permutation_map, Permutation_sym. exact Hperm.
  - intros x Hx. apply (Permutation_in _ Hperm). rewrite <- Hsplit.
    apply in_or_app. left. exact Hx.
  - clear - Htop. induction Htop as [| a t _ IH Hall]; constructor.
    + exact IH.
    + eapply Forall_impl; [| exact Hall].
      intros b Hab. apply Z.leb_le. exact Hab.
  - intros x Hx Hnot y Hy.
    apply (Permutation_in _ (Permutation_sym Hperm)) in Hx.
    rewrite <- Hsplit in Hx. apply in_app_or in Hx as [Hx | Hx]; [tauto |].
    apply Z.leb_le. exact (Hcross y x Hy Hx).
  - intros Hlen x Hx. unfold top. rewrite firstn_all2.
    + apply (Permutation_in _ (Permutation_sym Hperm)). exact Hx.
    + rewrite (Permutation_length Hperm). exact Hlen.
Qed.

(** C8 as stated fails: of two identities, one in two events and one in a
    single event, the report lists only the first, although fewer than ten
    identities exist. *)
Lemma top_idcards_omit_single_identities :
  ~ (forall results events report,
       print_statistics results events = Ok report ->
       (List.length (distinct (idcards events)) < 10)%nat ->
       forall s, In s (idcards events) ->
       exists top, top_idcards report = Some top /\ In s (map fst top)).
Proof.
  intros claim.
  destruct (claim scenario_results
              [event_of "login" "A"; event_of "login" "A"; event_of "login" "B"]
              _ eq_refl ltac:(vm_compute; lia) "B" ltac:(simpl; tauto))
    as (top & Htop & Hin).
  vm_compute in Htop. injection Htop as <-.
  simpl in Hin. destruct Hin as [H | []]. discriminate H.
Qed.

(** C8, amended: the report lists the identities that occur in more than
    one event, ranked by descending occurrence count and cut after the
    tenth: each listed idcard is such an identity and stands with its
    occurrence count, no idcard is listed twice, no unlisted such identity
    occurs more often than a listed one, and all of them are listed when
    there are at most 10.  Identities that occur in a single event are
    never listed, and the list is omitted when no identity occurs more than
    once. *)
Theorem top_idcards_are_top_duplicates results events report :
  print_statistics results events = Ok report ->
  match top_idcards report with
  | None => duplicated (idcards events) = []
  | Some top =>
      duplicated (idcards events) <> [] /\
      List.length top =
        Nat.min 10 (List.length (duplicated (idcards events))) /\
      NoDup (map fst top) /\
      (forall s c,
         In (s, c) top ->
         In s (duplicated (idcards events)) /\
         c = Z.of_nat (occurrences (idcards events) s)) /\
      StronglySorted (fun a b => snd b <= snd a) top /\
      (forall s,
         In s (duplicated (idcards events)) -> ~ In s (map fst top) ->
         forall t c,
           In (t, c) top -> Z.of_nat (occurrences (idcards events) s) <= c) /\
      ((List.length (duplicated (idcards events)) <= 10)%nat ->
       forall s, In s (duplicated (idcards events)) -> In s (map fst top))
  end.
Proof.
  intros Hrun.
  destruct (print_statistics_ok _ _ _ Hrun) as (_ & _ & _ & _ & _ & _ & Htop).
  set (ids := idcards events) in *.
  set (dups := filter (fun kv : string * Z => 1 <? snd kv)
                      (items (count_keys String.eqb ids))) in *.
  assert (Hitem : forall s c, In (s, c) dups <->
                    In s (duplicated ids) /\ c = Z.of_nat (occurrences ids s))
    by (intros s c; apply duplicate_item_In).
  assert (Hlen : List.length dups = List.length (duplicated ids))
    by apply duplicate_items_length.
  rewrite Htop. destruct dups as [| kv dups'] eqn:Hdups.
  - destruct (duplicated ids); [reflexivity | discriminate Hlen].
  - rewrite <- Hdups in *. unfold items.
    destruct (firstn_sorted_by_count 10 dups)
      as (Hl & Hnd & Hincl & Hsorted & Hrest & Hall).
    split; [| split; [| split; [| split; [| split; [| split]]]]].
    + intros Hnil. rewrite Hnil, Hdups in Hlen. discriminate Hlen.
    + rewrite Hl, Hlen. reflexivity.
    + apply Hnd. subst dups. apply duplicate_items_NoDup.
    + intros s c Hin. apply Hitem, Hincl. exact Hin.
    + exact Hsorted.
    + intros s Hs Hnot t c Hin.
      apply (Hrest (s, Z.of_nat (occurrences ids s))) in Hin.
      * exact Hin.
      * apply Hitem. split; [exact Hs | reflexivity].
      * intros Hin'. apply Hnot. apply in_map_iff.
        exists (s, Z.of_nat (occurrences ids s)). split; [reflexivity | exact Hin'].
    + intros Hle s Hs. apply in_map_iff.
      exists (s, Z.of_nat (occurrences ids s)). split; [reflexivity |].
      apply Hall; [rewrite Hlen; exact Hle |].
      apply Hitem. split; [exact Hs | reflexivity].
Qed.

Lemma top_idcards_are_top_duplicates_witness :
  exists report top,
    print_statistics scenario_results scenario_events = Ok report /\
    top_idcards report = Some top /\
    List.length top = 3%nat /\
    NoDup (map fst top).
Proof.
  destruct (print_statistics scenario_results scenario_events)
    as [report | e] eqn:Hrun; [| vm_compute in Hrun; discriminate Hrun].
  pose proof (top_idcards_are_top_duplicates scenario_results scenario_events
                report Hrun) as Hspec.
  destruct (top_idcards report) as [top |] eqn:Htop.
  - destruct Hspec as (_ & Hlen & Hnd & _).
    exists report, top. repeat split; assumption.
  - discriminate Hspec.
Defined.

(* ================================================================== *)
(** * What each step does to the world *)
(* ================================================================== *)

Lemma random_randint_frame a b w n w' :
  random_randint a b w = (Ok n, w') ->
  random w' = tl (random w) /\ fake w' = fake w /\
  clock w' = clock w /\ endpoint w' = endpoint w.
Proof.
  unfold random_randint, with_random, randint, next.
  destruct (b <? a); intros H; inversion H; subst. cbn. repeat split.
Qed.

Lemma random_choice_frame {A} (l : list A) w x w' :
  random_choice l w = (Ok x, w') ->
  In x l /\ random w' = tl (random w) /\ fake w' = fake w /\
  clock w' = clock w /\ endpoint w' = endpoint w.
Proof.
  unfold random_choice, with_random, choice, next.
  destruct l as [| d l]; intros H; [discriminate H |].
  injection H as <- <-. split; [| repeat split].
  assert (Hlt : (Z.to_nat (hd 0%Z (random w) mod len (d :: l))
                 < List.length (d :: l))%nat).
  { unfold len.
    pose proof (Z.mod_pos_bound (hd 0 (random w))
                  (Z.of_nat (List.length (d :: l)))) as Hb.
    cbn [List.length] in *. lia. }
  exact (nth_In (d :: l) d Hlt).
Qed.

Lemma fake_text_frame p w s w' :
  fake_text p w = (Ok s, w') ->
  random w' = random w /\ clock w' = clock w /\ endpoint w' = endpoint w /\
  locale (fake w') = locale (fake w) /\
  generator (fake w') = tl (generator (fake w)).
Proof.
  unfold fake_text, with_fake, next. intros H. inversion H; subst. cbn.
  repeat split.
Qed.

Lemma fake_random_int_frame lo hi w n w' :
  fake_random_int lo hi w = (Ok n, w') ->
  random w' = random w /\ clock w' = clock w /\ endpoint w' = endpoint w /\
  locale (fake w') = locale (fake w) /\
  generator (fake w') = tl (generator (fake w)).
Proof.
  unfold fake_random_int, with_fake, randint, next.
  destruct (hi <? lo); intros H; inversion H; subst. cbn. repeat split.
Qed.

Lemma datetime_now_frame w d w' :
  datetime_now w = (Ok d, w') ->
  random w' = random w /\ fake w' = fake w /\
  clock w' = tl (clock w) /\ endpoint w' = endpoint w.
Proof.
  unfold datetime_now, next. intros H. inversion H; subst. cbn. repeat split.
Qed.

Lemma skipn_S_tl {A} (n : nat) (l : list A) : skipn (S n) l = tl (skipn n l).
Proof.
  revert l. induction n as [| n IH]; intros [| x l]; try reflexivity.
  change (skipn (S (S n)) (x :: l)) with (skipn (S n) l).
  change (skipn (S n) (x :: l)) with (skipn n l). apply IH.
Qed.

(** Replaces the steps of a successful run by what they did to the world. *)
Ltac step_frames :=
  repeat match goal with
  | Hs : lift _ _ = (Ok _, _) |- _ => apply lift_ok_inv in Hs as [Hs <-]
  end;
  repeat match goal with
  | Hs : random_randint _ _ _ = (Ok _, _) |- _ =>
      apply random_randint_frame in Hs as (? & ? & ? & ?)
  | Hs : random_choice _ _ = (Ok _, _) |- _ =>
      apply random_choice_frame in Hs as (_ & ? & ? & ? & ?)
  | Hs : fake_text _ _ = (Ok _, _) |- _ =>
      apply fake_text_frame in Hs as (? & ? & ? & ? & ?)
  | Hs : datetime_now _ = (Ok _, _) |- _ =>
      apply datetime_now_frame in Hs as (? & ? & ? & ?)
  end.

(** Rewrites a field of the final world back to the initial one. *)
Ltac chase :=
  repeat match goal with
  | H : _ = _ |- _ => rewrite H; clear H
  end.

Lemma generate_event_world index idcard_pool old_idcard_pool w event w' :
  generate_event index idcard_pool old_idcard_pool w = (Ok event, w') ->
  endpoint w' = endpoint w /\
  clock w' = tl (clock w) /\
  random w' = skipn 20 (random w) /\
  locale (fake w') = locale (fake w) /\
  generator (fake w') = skipn 7 (generator (fake w)).
Proof.
  intros H. unfold generate_event in H. bind_steps H.
  apply ret_ok_inv in H as [_ <-]. step_frames.
  repeat rewrite skipn_S_tl. cbn [skipn].
  repeat split; congruence.
Qed.

Lemma offline_ret {A} (a : A) : offline (ret a).
Proof. intros w r w' H. inversion H. reflexivity. Qed.

Lemma offline_lift {A} (r : result A) : offline (lift r).
Proof. intros w r' w' H. inversion H. reflexivity. Qed.

Lemma offline_bind {A B} (m : M A) (k : A -> M B) :
  offline m -> (forall a, offline (k a)) -> offline (bind m k).
Proof.
  intros Hm Hk w r w' H. unfold bind in H.
  destruct (m w) as [[a | e] w1] eqn:Hmw.
  - rewrite (Hk a _ _ _ H). exact (Hm _ _ _ Hmw).
  - inversion H; subst. exact (Hm _ _ _ Hmw).
Qed.

Lemma offline_with_random {A} (f : rng -> result A * rng) :
  offline (with_random f).
Proof.
  intros w r w' H. unfold with_random in H.
  destruct (f (random w)). inversion H. reflexivity.
Qed.

Lemma offline_with_fake {A} (f : Faker -> result A * Faker) :
  offline (with_fake f).
Proof.
  intros w r w' H. unfold with_fake in H.
  destruct (f (fake w)). inversion H. reflexivity.
Qed.

Lemma offline_datetime_now : offline datetime_now.
Proof. intros w r w' H. unfold datetime_now, next in H. inversion H. reflexivity. Qed.

Ltac offline_steps :=
  repeat lazymatch goal with
  | |- offline (bind _ _) => apply offline_bind; [| intros ?]
  | |- offline (ret _) => apply offline_ret
  | |- offline (lift _) => apply offline_lift
  | |- offline (with_random _) => apply offline_with_random
  | |- offline (with_fake _) => apply offline_with_fake
  | |- offline datetime_now => apply offline_datetime_now
  | |- offline _ => progress cbv beta zeta
  end.

Lemma generate_event_offline index idcard_pool old_idcard_pool :
  offline (generate_event index idcard_pool old_idcard_pool).
Proof.
  unfold generate_event, random_randint, random_choice, fake_text.
  offline_steps.
Qed.

Lemma comprehension_offline {A B} (f : A -> M B) (l : list A) :
  (forall x, offline (f x)) -> offline (comprehension f l).
Proof.
  intros Hf. induction l as [| x l IH]; cbn [comprehension].
  - apply offline_ret.
  - apply offline_bind; [apply Hf | intros y].
    apply offline_bind; [exact IH | intros ys]. apply offline_ret.
Qed.

(* ================================================================== *)
(** * More on the generator *)
(* ================================================================== *)

Lemma getitem_nth_error {A} (l : list A) i x :
  0 <= i -> getitem l i = Ok x ->
  nth_error l (Z.to_nat i) = Some x /\ i < len l.
Proof.
  intros Hi. unfold getitem. cbv zeta.
  destruct (i <? 0) eqn:Hneg; [apply Z.ltb_lt in Hneg; lia |].
  rewrite Hneg.
  destruct (len l <=? i) eqn:Hb; cbn [orb]; [discriminate |].
  apply Z.leb_gt in Hb.
  destruct (nth_error l (Z.to_nat i)) as [y |]; [| discriminate].
  intros H. inversion H; subst. split; [reflexivity | exact Hb].
Qed.

(** The event's pair of identities sits at one position of the two pools:
    [idcard] and [old_idcard] are read with the same random index. *)
Theorem generate_event_identity_pair index idcard_pool old_idcard_pool w
        event w' :
  generate_event index idcard_pool old_idcard_pool w = (Ok event, w') ->
  exists i,
    (i < List.length idcard_pool)%nat /\
    nth_error idcard_pool i = Some (idcard (traits event)) /\
    nth_error old_idcard_pool i = Some (old_idcard (traits event)).
Proof.
  intros H. unfold generate_event in H. bind_steps H.
  apply ret_ok_inv in H as [Hev _]. subst event. cbn [traits idcard old_idcard].
  match goal with
  | Hi : random_randint 0 _ w = (Ok ?i, _),
    Ha : lift (getitem idcard_pool ?i) _ = (Ok _, _),
    Hb : lift (getitem old_idcard_pool ?i) _ = (Ok _, _) |- _ =>
      apply random_randint_range in Hi;
      apply lift_ok_inv in Ha as [Ha _];
      apply lift_ok_inv in Hb as [Hb _];
      apply getitem_nth_error in Ha as [Ha Hlt]; [| lia];
      apply getitem_nth_error in Hb as [Hb _]; [| lia];
      exists (Z.to_nat i); unfold len in Hlt;
      split; [lia | split; assumption]
  end.
Qed.

Lemma generate_event_identity_pair_witness :
  exists event w' i,
    generate_event 1 ["100000000001"; "100000000002"] ["111111111"; "222222222"]
      {| random := [1]; fake := {| locale := fun _ _ => ""; generator := [] |};
         clock := []; endpoint := [] |} = (Ok event, w') /\
    nth_error ["100000000001"; "100000000002"] i = Some (idcard (traits event)) /\
    nth_error ["111111111"; "222222222"] i = Some (old_idcard (traits event)).
Proof.
  destruct (generate_event 1 ["100000000001"; "100000000002"]
              ["111111111"; "222222222"]
              {| random := [1];
                 fake := {| locale := fun _ _ => ""; generator := [] |};
                 clock := []; endpoint := [] |})
    as [[event | e] w'] eqn:Hgen; [| vm_compute in Hgen; discriminate Hgen].
  destruct (generate_event_identity_pair _ _ _ _ _ _ Hgen) as (i & _ & Ha & Hb).
  exists event, w', i. split; [reflexivity | split; assumption].
Defined.

(** Every enumerated field of an event is a member of its data pool, the
    login count lies between 1 and 100, the application version is three
    dotted numbers in 1..3, 0..9 and 0..9, and the full name is the last
    name, a space and the first name. *)
Theorem generate_event_fields_in_pools index idcard_pool old_idcard_pool w
        event w' :
  generate_event index idcard_pool old_idcard_pool w = (Ok event, w') ->
  In (type event) TYPES /\
  In (gender (traits event)) GENDERS /\
  In (religion (traits event)) RELIGIONS /\
  In (os (platforms event)) OS_LIST /\
  In (device (platforms event)) DEVICES /\
  In (browser (platforms event)) BROWSERS /\
  In (utm_source (campaign event)) UTM_SOURCES /\
  In (utm_campaign (campaign event)) UTM_CAMPAIGNS /\
  In (utm_medium (campaign event)) UTM_MEDIUMS /\
  In (registration_source (metadata event)) REG_SOURCES /\
  1 <= login_count (metadata event) <= 100 /\
  (exists major minor patch,
     1 <= major <= 3 /\ 0 <= minor <= 9 /\ 0 <= patch <= 9 /\
     app_version (platforms event) =
       str major ++ "." ++ str minor ++ "." ++ str patch) /\
  full_name (traits event) =
    last_name (traits event) ++ " " ++ first_name (traits event).
Proof.
  intros H. unfold generate_event in H. bind_steps H.
  apply ret_ok_inv in H as [Hev _]. subst event. cbn.
  repeat match goal with
  | Hs : random_choice _ _ = (Ok _, _) |- _ =>
      apply random_choice_frame in Hs as (Hs & _)
  | Hs : random_randint _ _ _ = (Ok _, _) |- _ =>
      apply random_randint_range in Hs
  end.
  repeat (split; [assumption |]).
  split; [| reflexivity].
  eexists _, _, _. refine (conj _ (conj _ (conj _ eq_refl))); assumption.
Qed.

Lemma generate_event_fields_in_pools_witness :
  exists event w',
    generate_event 1 ["100000000001"] ["111111111"]
      (world_drawing [0; 0; 0; 0; 0; 3; 1; 2] []) = (Ok event, w') /\
    type event = "purchase" /\ In (type event) TYPES /\
    1 <= login_count (metadata event) <= 100.
Proof.
  destruct (generate_event 1 ["100000000001"] ["111111111"]
              (world_drawing [0; 0; 0; 0; 0; 3; 1; 2] []))
    as [[event | e] w'] eqn:Hgen; [| vm_compute in Hgen; discriminate Hgen].
  destruct (generate_event_fields_in_pools _ _ _ _ _ _ Hgen)
    as (Hty & _ & _ & _ & _ & _ & _ & _ & _ & _ & Hlogin & _).
  exists event, w'. split; [reflexivity |].
  split; [| split; assumption].
  vm_compute in Hgen. injection Hgen as <- _. reflexivity.
Defined.

(** The first draw of [generate_event]: the index into the pools. *)
Lemma first_draw_index (idcard_pool : list string) w :
  idcard_pool <> [] ->
  random_randint 0 (len idcard_pool - 1) w =
    (Ok (hd 0 (random w) mod len idcard_pool),
     {| random := tl (random w); fake := fake w; clock := clock w;
        endpoint := endpoint w |}).
Proof.
  intros Hne. unfold random_randint, with_random.
  assert (Hpos : 0 < len idcard_pool).
  { unfold len. destruct idcard_pool; [contradiction | simpl; lia]. }
  rewrite randint_returns by lia.
  replace (len idcard_pool - 1 - 0 + 1) with (len idcard_pool) by lia.
  reflexivity.
Qed.

(** Once both identities have been read, the rest of [generate_event]
    cannot fail. *)
Lemma generate_event_returns_at index idcard_pool old_idcard_pool w :
  idcard_pool <> [] ->
  hd 0 (random w) mod len idcard_pool < len old_idcard_pool ->
  exists event w',
    generate_event index idcard_pool old_idcard_pool w = (Ok event, w').
Proof.
  intros Hne Hold. unfold generate_event.
  assert (Hpos : 0 < len idcard_pool).
  { unfold len. destruct idcard_pool; [contradiction | simpl; lia]. }
  pose proof (Z.mod_pos_bound (hd 0 (random w)) (len idcard_pool) Hpos) as Hi.
  apply (bind_returns _ _ _ _ _ (first_draw_index idcard_pool w Hne)).
  set (i := hd 0 (random w) mod len idcard_pool) in *.
  destruct (getitem_returns idcard_pool i ltac:(lia)) as (id & Hid).
  run_lift Hid.
  destruct (getitem_returns old_idcard_pool i ltac:(lia)) as (old & Hgot).
  run_lift Hgot.
  do 3 run_randint.
  match goal with
  | |- exists _ _, bind datetime_now _ ?w0 = _ =>
      destruct (datetime_now_returns w0) as (now & w4 & Hnow)
  end.
  apply (bind_returns _ _ _ _ _ Hnow). apply datetime_now_range in Hnow.
  cbv beta zeta.
  match goal with
  | Hd : 0 <= ?d <= 30, Hh : 0 <= ?h <= 23, Hm : 0 <= ?m <= 59 |- _ =>
      pose proof (timedelta_bounds d h m Hd Hh Hm) as Htd;
      assert (Hmin : datetime_min = - (719162 * us_per_day)) by reflexivity;
      assert (Hday : us_per_day = 86400000000) by reflexivity;
      pose proof (datetime_sub_returns now (timedelta d h m) ltac:(lia)) as Het
  end.
  run_lift Het.
  run_randint.
  match goal with
  | Hf : 0 <= ?f <= 365 |- exists _ _, bind (lift (datetime_sub ?t _)) _ _ = _ =>
      assert (Hfd : 0 <= timedelta f 0 0 <= 365 * us_per_day)
        by (unfold timedelta; lia);
      pose proof (datetime_sub_returns t (timedelta f 0 0) ltac:(lia)) as Hfs
  end.
  run_lift Hfs.
  do 2 run_fake. do 2 run_choice. do 2 run_fake. run_choice. do 2 run_fake.
  do 4 run_choice. do 3 run_randint. do 4 run_choice. run_fake. run_randint.
  eexists _, _. reflexivity.
Qed.

Lemma getitem_out_of_range {A} (l : list A) i :
  len l <= i -> getitem l i = Raise (IndexError "list index out of range").
Proof.
  intros Hi. unfold getitem. cbv zeta.
  assert (Hl : 0 <= len l) by (unfold len; lia).
  destruct (i <? 0) eqn:Hneg; [apply Z.ltb_lt in Hneg; lia |].
  apply Z.leb_le in Hi. rewrite Hi, orb_true_r. reflexivity.
Qed.

(** How [generate_event] ends: with an empty idcard pool it raises
    [ValueError] without drawing anything; otherwise it draws the index
    [r mod len(idcard_pool)] from the next random value [r], raises
    [IndexError] when the old-idcard pool has no such position, and returns
    an event carrying the idcard at that index when it has. *)
Theorem generate_event_outcome index idcard_pool old_idcard_pool w :
  (idcard_pool = [] ->
   generate_event index idcard_pool old_idcard_pool w =
     (Raise (ValueError "empty range for randrange()"), w)) /\
  (idcard_pool <> [] ->
   len old_idcard_pool <= hd 0 (random w) mod len idcard_pool ->
   exists w',
     generate_event index idcard_pool old_idcard_pool w =
       (Raise (IndexError "list index out of range"), w') /\
     random w' = tl (random w)) /\
  (idcard_pool <> [] ->
   hd 0 (random w) mod len idcard_pool < len old_idcard_pool ->
   exists event w',
     generate_event index idcard_pool old_idcard_pool w = (Ok event, w') /\
     nth_error idcard_pool
               (Z.to_nat (hd 0 (random w) mod len idcard_pool)) =
       Some (idcard (traits event))).
Proof.
  split; [| split].
  - intros ->. apply generate_event_empty_pool_raises.
  - intros Hne Hold.
    assert (Hpos : 0 < len idcard_pool).
    { unfold len. destruct idcard_pool; [contradiction | simpl; lia]. }
    pose proof (Z.mod_pos_bound (hd 0 (random w)) (len idcard_pool) Hpos) as Hi.
    destruct (getitem_returns idcard_pool
                (hd 0 (random w) mod len idcard_pool) ltac:(lia)) as (id & Hid).
    eexists. unfold generate_event, bind at 1.
    rewrite (first_draw_index idcard_pool w Hne).
    unfold bind at 1, lift at 1. rewrite Hid.
    unfold bind at 1, lift at 1. rewrite (getitem_out_of_range _ _ Hold).
    split; reflexivity.
  - intros Hne Hold.
    destruct (generate_event_returns_at index _ _ w Hne Hold)
      as (event & w' & Hgen).
    exists event, w'. split; [exact Hgen |].
    unfold generate_event in Hgen.
    apply bind_ok_inv in Hgen as (i & w1 & Hi & Hgen).
    rewrite (first_draw_index idcard_pool w Hne) in Hi.
    injection Hi as <- <-.
    apply bind_ok_inv in Hgen as (id & w2 & Hid & Hgen).
    apply lift_ok_inv in Hid as [Hid _].
    bind_steps Hgen. apply ret_ok_inv in Hgen as [<- _]. cbn [traits idcard].
    apply getitem_nth_error in Hid; [apply Hid |].
    apply Z.mod_pos_bound. unfold len.
    destruct idcard_pool; [contradiction | simpl; lia].
Qed.

Lemma generate_event_outcome_witness :
  (exists w',
     generate_event 1 ["100000000001"; "100000000002"] ["111111111"]
       (world_drawing [1] []) =
       (Raise (IndexError "list index out of range"), w')) /\
  (exists event w',
     generate_event 1 ["100000000001"; "100000000002"] ["111111111"]
       (world_drawing [0] []) = (Ok event, w') /\
     idcard (traits event) = "100000000001").
Proof.
  destruct (generate_event_outcome 1 ["100000000001"; "100000000002"]
              ["111111111"] (world_drawing [1] [])) as (_ & Hindex & _).
  destruct (generate_event_outcome 1 ["100000000001"; "100000000002"]
              ["111111111"] (world_drawing [0] [])) as (_ & _ & Hok).
  split.
  - destruct (Hindex ltac:(discriminate) ltac:(vm_compute; discriminate))
      as (w' & Hraise & _).
    exists w'. exact Hraise.
  - destruct (Hok ltac:(discriminate) ltac:(reflexivity))
      as (event & w' & Hgen & Hid).
    exists event, w'. split; [exact Hgen |].
    change (Some "100000000001" = Some (idcard (traits event))) in Hid.
    injection Hid as Hid. symmetry. exact Hid.
Defined.

(** What generating an event does to the world: it never touches the
    endpoint, whether it returns or raises; when it returns, it has read the
    clock once, drawn 20 values from module [random] and 7 from [fake]. *)
Theorem generate_event_effects index idcard_pool old_idcard_pool w r w' :
  generate_event index idcard_pool old_idcard_pool w = (r, w') ->
  endpoint w' = endpoint w /\
  (is_ok r = true ->
   clock w' = tl (clock w) /\
   random w' = skipn 20 (random w) /\
   locale (fake w') = locale (fake w) /\
   generator (fake w') = skipn 7 (generator (fake w))).
Proof.
  intros H. split; [exact (generate_event_offline _ _ _ _ _ _ H) |].
  destruct r as [event | e]; [intros _ | discriminate].
  apply generate_event_world in H. tauto.
Qed.

Lemma generate_event_effects_witness :
  exists r w',
    generate_event 1 ["100000000001"] ["111111111"]
      (world_drawing (map Z.of_nat (seq 0 25)) [1700000000000000; 5]) =
      (r, w') /\
    clock w' = [5] /\ random w' = [20; 21; 22; 23; 24].
Proof.
  destruct (generate_event 1 ["100000000001"] ["111111111"]
              (world_drawing (map Z.of_nat (seq 0 25)) [1700000000000000; 5]))
    as [r w'] eqn:Hgen.
  destruct (generate_event_effects _ _ _ _ _ _ Hgen) as (_ & Hok).
  exists r, w'. split; [reflexivity |].
  assert (Hr : is_ok r = true).
  { vm_compute in Hgen. injection Hgen as <- _. reflexivity. }
  destruct (Hok Hr) as (Hclock & Hrandom & _). split; assumption.
Defined.

(* ================================================================== *)
(** * User ids *)
(* ================================================================== *)

Lemma zeros_parse k s u :
  NilEmpty.uint_of_string s = Some u ->
  NilEmpty.uint_of_string (zeros k ++ s) = Some (Nat.iter k Decimal.D0 u).
Proof.
  intros Hs. induction k as [| k IH]; [exact Hs |].
  cbn [zeros String.append NilEmpty.uint_of_string]. rewrite IH. reflexivity.
Qed.

Lemma of_uint_leading_zeros k u :
  Z.of_uint (Nat.iter k Decimal.D0 u) = Z.of_uint u.
Proof. induction k as [| k IH]; [reflexivity | exact IH]. Qed.

Lemma digits_parse u :
  exists u',
    NilEmpty.uint_of_string (NilZero.string_of_uint u) = Some u' /\
    Z.of_uint u' = Z.of_uint u.
Proof.
  destruct u; try (eexists; split; [apply NilEmpty.usu | reflexivity]).
  exists Decimal.zero. split; reflexivity.
Qed.

Lemma digits_head u :
  exists c rest,
    NilZero.string_of_uint u = String c rest /\
    Ascii.eqb c "-" = false /\ Ascii.eqb c "+" = false.
Proof. destruct u; eexists _, _; repeat split. Qed.

Lemma zeros_head k c rest :
  Ascii.eqb c "-" = false ->
  exists c' rest',
    zeros k ++ String c rest = String c' rest' /\ Ascii.eqb c' "-" = false.
Proof.
  intros Hc. destruct k as [| k].
  - exists c, rest. split; [reflexivity | exact Hc].
  - eexists _, _. split; reflexivity.
Qed.

(** Padding with zeros loses nothing: the text reads back as the number. *)
Lemma int_of_str_zfill (n : Z) (width : nat) :
  int_of_str (zfill (str n) width) = Some n.
Proof.
  unfold int_of_str, str. rewrite <- (DecimalZ.of_to n) at 2.
  destruct (Z.to_int n) as [u | u]; cbn [NilZero.string_of_int].
  - destruct (digits_head u) as (c & rest & Hs & Hminus & Hplus).
    destruct (digits_parse u) as (u' & Hparse & Hval).
    unfold zfill. rewrite Hs, Hminus, Hplus. cbn [orb]. rewrite <- Hs.
    set (k := (width - String.length (NilZero.string_of_uint u))%nat).
    destruct (zeros_head k c rest Hminus) as (c' & rest' & Hz & Hc').
    unfold NilZero.int_of_string. rewrite Hs, Hz, Hc', <- Hz, <- Hs.
    unfold NilZero.uint_of_string. rewrite Hs, Hz, <- Hz, <- Hs.
    rewrite (zeros_parse k _ _ Hparse). cbn [option_map Z.of_int].
    rewrite of_uint_leading_zeros, Hval. reflexivity.
  - destruct (digits_head u) as (c & rest & Hs & Hminus & _).
    destruct (digits_parse u) as (u' & Hparse & Hval).
    unfold zfill. cbn [Ascii.eqb Bool.eqb orb].
    set (k := (width - String.length (String "-" (NilZero.string_of_uint u)))%nat).
    unfold NilZero.int_of_string. cbn [Ascii.eqb Bool.eqb].
    destruct (zeros_head k c rest Hminus) as (c' & rest' & Hz & Hc').
    unfold NilZero.uint_of_string. rewrite Hs, Hz, <- Hz, <- Hs.
    rewrite (zeros_parse k _ _ Hparse). cbn [option_map Z.of_int].
    rewrite of_uint_leading_zeros, Hval. reflexivity.
Qed.

Lemma user_id_number_of form digits :
  In form ["desktop"; "mobile"; "tablet"] ->
  user_id_number ("user_" ++ form ++ "_" ++ digits) = int_of_str digits.
Proof.
  intros [<- | [<- | [<- | []]]]; reflexivity.
Qed.

Lemma generate_event_user_id index idcard_pool old_idcard_pool w event w' :
  generate_event index idcard_pool old_idcard_pool w = (Ok event, w') ->
  user_id_number (user_id event) = Some index.
Proof.
  intros H. unfold generate_event in H. bind_steps H.
  apply ret_ok_inv in H as [Hev _]. subst event. cbn [user_id].
  match goal with
  | Hs : random_choice ["desktop"; "mobile"; "tablet"] _ = (Ok _, _) |- _ =>
      apply random_choice_frame in Hs as (Hs & _);
      rewrite (user_id_number_of _ _ Hs)
  end.
  apply int_of_str_zfill.
Qed.

Lemma range_nth_error lo hi i x :
  nth_error (range lo hi) i = Some x -> x = lo + Z.of_nat i.
Proof.
  unfold range. rewrite nth_error_map.
  destruct (nth_error (seq 0 (Z.to_nat (hi - lo))) i) as [k |] eqn:Hk;
    [| discriminate].
  intros H. injection H as <-.
  pose proof (nth_error_Some (seq 0 (Z.to_nat (hi - lo))) i) as Hlt.
  rewrite Hk in Hlt. rewrite length_seq in Hlt.
  assert (Hi : (i < Z.to_nat (hi - lo))%nat) by (apply Hlt; discriminate).
  rewrite (nth_error_nth' _ 0%nat) in Hk by (rewrite length_seq; exact Hi).
  rewrite seq_nth in Hk by exact Hi. injection Hk as <-. reflexivity.
Qed.

Lemma Forall2_nth_error_right {A B} (R : A -> B -> Prop) l ys i y :
  Forall2 R l ys -> nth_error ys i = Some y ->
  exists x, nth_error l i = Some x /\ R x y.
Proof.
  intros H. revert i. induction H as [| x y' l ys Hxy _ IH]; intros i Hi.
  - destruct i; discriminate Hi.
  - destruct i as [| i].
    + injection Hi as <-. exists x. split; [reflexivity | exact Hxy].
    + apply IH. exact Hi.
Qed.

(** The user ids of a run tell the events apart: the number at the end of
    the user id of the event at position [i] (from 0) reads back as
    [i + 1], however wide, so no two events of a run share a user id. *)
Theorem generate_events_user_ids_unique n idcard_pool old_idcard_pool w
        events w' :
  generate_events n idcard_pool old_idcard_pool w = (Ok events, w') ->
  (forall i event,
     nth_error events i = Some event ->
     user_id_number (user_id event) = Some (Z.of_nat i + 1)) /\
  NoDup (map user_id events).
Proof.
  intros H. unfold generate_events in H. apply comprehension_ok_inv in H.
  assert (Hnum : forall i event,
             nth_error events i = Some event ->
             user_id_number (user_id event) = Some (Z.of_nat i + 1)).
  { intros i event Hi.
    destruct (Forall2_nth_error_right _ _ _ _ _ H Hi) as (x & Hx & w1 & w2 & Hgen).
    apply range_nth_error in Hx. subst x.
    rewrite (generate_event_user_id _ _ _ _ _ _ Hgen). f_equal. lia. }
  split; [exact Hnum |].
  apply NoDup_nth_error. intros i j Hi Hij.
  rewrite length_map in Hi. rewrite !nth_error_map in Hij.
  destruct (nth_error events i) as [ei |] eqn:Hei;
    [| apply nth_error_None in Hei; lia].
  destruct (nth_error events j) as [ej |] eqn:Hej; [| discriminate Hij].
  cbn [option_map] in Hij. injection Hij as Hij.
  pose proof (Hnum i ei Hei) as Hni. pose proof (Hnum j ej Hej) as Hnj.
  rewrite Hij, Hnj in Hni. injection Hni as Hni. lia.
Qed.

Lemma generate_events_user_ids_unique_witness :
  exists events w',
    generate_events 3 ["100000000001"] ["111111111"] (world_drawing [] []) =
      (Ok events, w') /\
    map user_id events =
      ["user_desktop_00001"; "user_desktop_00002"; "user_desktop_00003"] /\
    NoDup (map user_id events).
Proof.
  destruct (generate_events 3 ["100000000001"] ["111111111"]
              (world_drawing [] []))
    as [[events | e] w'] eqn:Hgen; [| vm_compute in Hgen; discriminate Hgen].
  destruct (generate_events_user_ids_unique _ _ _ _ _ _ Hgen) as (_ & Hnd).
  exists events, w'. split; [reflexivity |]. split; [| exact Hnd].
  vm_compute in Hgen. injection Hgen as <- _. reflexivity.
Defined.

(* ================================================================== *)
(** * More on the dispatcher *)
(* ================================================================== *)

Lemma requests_post_frame rq w r w' :
  requests_post rq w = (r, w') ->
  random w' = random w /\ fake w' = fake w /\ clock w' = clock w /\
  endpoint w' = tl (endpoint w).
Proof.
  unfold requests_post. destruct (endpoint w) as [| exchange rest] eqn:He.
  - intros H. inversion H; subst. rewrite He. repeat split.
  - destruct (exchange rq); intros H; inversion H; subst; cbn; repeat split.
Qed.

Lemma send_event_frame event index config w r w' :
  send_event event index config w = (r, w') ->
  is_ok r = true /\
  random w' = random w /\ fake w' = fake w /\ clock w' = clock w /\
  endpoint w' = tl (endpoint w).
Proof.
  intros H.
  destruct (requests_post (request_of event config) w) as [[[s t] | e] w1] eqn:Hp.
  - rewrite (send_event_on_response _ index _ _ _ _ _ Hp) in H.
    inversion H; subst. split; [reflexivity |].
    eapply requests_post_frame; exact Hp.
  - rewrite (send_event_on_fault _ index _ _ _ _ Hp) in H.
    inversion H; subst. split; [reflexivity |].
    eapply requests_post_frame; exact Hp.
Qed.

(** One send is one exchange: [send_event] always returns an outcome, takes
    exactly the next exchange of the endpoint, and leaves the random
    generators and the clock as they were.  The exchange is asked with the
    configured URL, the event as JSON body, the configured API key in the
    [X-API-Key] header and a timeout of 10; a response gives the outcome
    its status code, a fault gives the status code 0. *)
Theorem send_event_one_exchange event index config w r w' :
  send_event event index config w = (r, w') ->
  (exists o, r = Ok o) /\
  random w' = random w /\ fake w' = fake w /\ clock w' = clock w /\
  endpoint w' = tl (endpoint w) /\
  (forall exchange rest o,
     endpoint w = exchange :: rest -> r = Ok o ->
     match exchange {| url := API_URL config; json := event;
                       headers := [("Content-Type", "application/json");
                                   ("X-API-Key", API_KEY config)];
                       timeout := 10 |} with
     | Response status_code _ => Outcome.status_code o = status_code
     | Fault e =>
         Outcome.status_code o = 0 /\ Outcome.detail o = error (str_exn e)
     end).
Proof.
  intros H. pose proof (send_event_frame _ _ _ _ _ _ H)
    as (Hok & Hrandom & Hfake & Hclock & Hendpoint).
  split; [destruct r as [o | e]; [exists o; reflexivity | discriminate Hok] |].
  repeat (split; [assumption |]).
  intros exchange rest o He ->.
  fold (request_of event config).
  destruct (exchange (request_of event config)) as [s t | e] eqn:Hex.
  - assert (Hp : requests_post (request_of event config) w =
                 (Ok (s, t), {| random := random w; fake := fake w;
                                clock := clock w; endpoint := rest |})).
    { unfold requests_post. rewrite He, Hex. reflexivity. }
    rewrite (send_event_on_response _ index _ _ _ _ _ Hp) in H.
    injection H as <- _. reflexivity.
  - assert (Hp : requests_post (request_of event config) w =
                 (Raise e, {| random := random w; fake := fake w;
                              clock := clock w; endpoint := rest |})).
    { unfold requests_post. rewrite He, Hex. reflexivity. }
    rewrite (send_event_on_fault _ index _ _ _ _ Hp) in H.
    injection H as <- _. split; reflexivity.
Qed.

Lemma send_event_one_exchange_witness :
  exists o w',
    send_event sample_event 1 default_Config
      (world_answering_all [Response 201 "created"; Response 500 "down"]) =
      (Ok o, w') /\
    List.length (endpoint w') = 1%nat /\
    Outcome.status_code o = 201.
Proof.
  destruct (send_event sample_event 1 default_Config
              (world_answering_all [Response 201 "created"; Response 500 "down"]))
    as [r w'] eqn:Hsend.
  destruct (send_event_one_exchange _ _ _ _ _ _ Hsend)
    as ((o & ->) & _ & _ & _ & Hendpoint & Hreply).
  exists o, w'. split; [reflexivity |]. split.
  - rewrite Hendpoint. reflexivity.
  - exact (Hreply _ _ o eq_refl eq_refl).
Defined.

(** The error text the report shows for a failed send: the first 200
    characters of the body for a status of 400 or more, the text of the
    exception for a fault (and [Unknown error] when that text is empty,
    never the empty text), and nothing at all, which prints as [None], for
    a failed send with a status below 400, such as 202 or 304. *)
Theorem send_event_error_msg event index config w o w' :
  send_event event index config w = (Ok o, w') ->
  (400 <= Outcome.status_code o ->
   exists text,
     requests_post (request_of event config) w =
       (Ok (Outcome.status_code o, text), w') /\
     Outcome.success o = false /\
     error_msg o = Some (slice_to 200 text)) /\
  (0 < Outcome.status_code o < 400 ->
   Outcome.status_code o <> 200 -> Outcome.status_code o <> 201 ->
   Outcome.success o = false /\ error_msg o = None) /\
  (forall status text,
     requests_post (request_of event config) w = (Ok (status, text), w') ->
     status < 400 ->
     error_msg o = None /\
     (status <> 200 -> status <> 201 -> Outcome.success o = false)) /\
  (forall e,
     requests_post (request_of event config) w = (Raise e, w') ->
     Outcome.success o = false /\
     (str_exn e = "" -> error_msg o = Some "Unknown error") /\
     (str_exn e <> "" -> error_msg o = Some (str_exn e)) /\
     error_msg o <> Some "").
Proof.
  intros H.
  destruct (requests_post (request_of event config) w) as [[[s t] | e] w1] eqn:Hp.
  - rewrite (send_event_on_response _ index _ _ _ _ _ Hp) in H.
    injection H as <- <-. cbn [Outcome.status_code Outcome.success].
    unfold error_msg. cbn [Outcome.detail contains existsb].
    split; [| split; [| split]].
    + intros Hs. exists t. split; [reflexivity |].
      assert (H400 : (400 <=? s) = true) by (apply Z.leb_le; exact Hs).
      rewrite H400. split; [| reflexivity].
      assert (H200 : (s =? 200) = false) by (apply Z.eqb_neq; lia).
      assert (H201 : (s =? 201) = false) by (apply Z.eqb_neq; lia).
      rewrite H200, H201. reflexivity.
    + intros Hs H200 H201.
      assert (H400 : (400 <=? s) = false) by (apply Z.leb_gt; lia).
      rewrite H400. split; [| reflexivity].
      apply Z.eqb_neq in H200, H201. rewrite H200, H201. reflexivity.
    + intros s' t' Heq Hs. injection Heq as <- <-.
      assert (H400 : (400 <=? s) = false) by (apply Z.leb_gt; lia).
      rewrite H400. split; [reflexivity |].
      intros H200 H201. apply Z.eqb_neq in H200, H201.
      rewrite H200, H201. reflexivity.
    + intros e He. discriminate He.
  - rewrite (send_event_on_fault _ index _ _ _ _ Hp) in H.
    injection H as <- <-. cbn [Outcome.status_code Outcome.success].
    unfold error_msg. cbn [Outcome.detail].
    split; [intros Hs; lia |]. split; [intros Hs; lia |].
    split; [intros s' t' Heq; discriminate Heq |].
    intros e' He'. injection He' as <-. split; [reflexivity |].
    destruct (str_exn e) as [| c m] eqn:Hm.
    + split; [reflexivity |]. split; [intros Hne; contradiction | discriminate].
    + split; [discriminate |]. split; [reflexivity | discriminate].
Qed.

Lemma send_event_error_msg_witness :
  (exists o w',
     send_event sample_event 1 default_Config
       (world_answering (Response 304 "Not Modified")) = (Ok o, w') /\
     Outcome.success o = false /\ error_msg o = None) /\
  (exists o w',
     send_event sample_event 1 default_Config
       (world_answering (Fault (ConnectionError ""))) = (Ok o, w') /\
     error_msg o = Some "Unknown error") /\
  (exists o w',
     send_event sample_event 1 default_Config
       (world_answering (Fault (ConnectionError "timed out"))) = (Ok o, w') /\
     error_msg o = Some "timed out").
Proof.
  split; [| split].
  - destruct (send_event sample_event 1 default_Config
                (world_answering (Response 304 "Not Modified")))
      as [[o | e] w'] eqn:Hsend; [| vm_compute in Hsend; discriminate Hsend].
    destruct (send_event_error_msg _ _ _ _ _ _ Hsend) as (_ & Hquiet & _).
    exists o, w'. split; [reflexivity |].
    vm_compute in Hsend. injection Hsend as <- _.
    apply Hquiet; cbn; lia.
  - destruct (send_event sample_event 1 default_Config
                (world_answering (Fault (ConnectionError ""))))
      as [[o | e] w'] eqn:Hsend; [| vm_compute in Hsend; discriminate Hsend].
    destruct (send_event_error_msg _ _ _ _ _ _ Hsend) as (_ & _ & _ & Hfault).
    exists o, w'. split; [reflexivity |].
    assert (Hw : w' = world_silent)
      by (vm_compute in Hsend; injection Hsend as _ <-; reflexivity).
    subst w'.
    destruct (Hfault (ConnectionError "") eq_refl) as (_ & Hempty & _).
    apply Hempty. reflexivity.
  - destruct (send_event sample_event 1 default_Config
                (world_answering (Fault (ConnectionError "timed out"))))
      as [[o | e] w'] eqn:Hsend; [| vm_compute in Hsend; discriminate Hsend].
    destruct (send_event_error_msg _ _ _ _ _ _ Hsend) as (_ & _ & _ & Hfault).
    exists o, w'. split; [reflexivity |].
    assert (Hw : w' = world_silent)
      by (vm_compute in Hsend; injection Hsend as _ <-; reflexivity).
    subst w'.
    destruct (Hfault (ConnectionError "timed out") eq_refl) as (_ & _ & Htext & _).
    apply Htext. discriminate.
Defined.

Lemma send_event_renumber event i j config w o w' :
  send_event event i config w = (Ok o, w') ->
  send_event event j config w = (Ok (renumber (j - i) o), w').
Proof.
  intros H.
  destruct (requests_post (request_of event config) w) as [[[s t] | e] w1] eqn:Hp.
  - rewrite (send_event_on_response _ i _ _ _ _ _ Hp) in H.
    rewrite (send_event_on_response _ j _ _ _ _ _ Hp).
    injection H as <- <-. unfold renumber. cbn. do 3 f_equal. lia.
  - rewrite (send_event_on_fault _ i _ _ _ _ Hp) in H.
    rewrite (send_event_on_fault _ j _ _ _ _ Hp).
    injection H as <- <-. unfold renumber. cbn. do 3 f_equal. lia.
Qed.

Lemma sent_in_order_deterministic config start events w os1 w1 :
  sent_in_order config start events w os1 w1 ->
  forall os2 w2,
    sent_in_order config start events w os2 w2 -> os1 = os2 /\ w1 = w2.
Proof.
  induction 1 as [| start ev events w o wa outcomes w' Hsend _ IH];
    intros os2 w2 H2; inversion H2; subst.
  - split; reflexivity.
  - match goal with
    | Hs : send_event ev start config w = (Ok ?o', ?wb) |- _ =>
        rewrite Hsend in Hs; injection Hs as <- <-
    end.
    match goal with
    | Hr : sent_in_order _ _ events wa _ w2 |- _ =>
        destruct (IH _ _ Hr) as [<- <-]
    end.
    split; reflexivity.
Qed.

Lemma sent_in_order_app config start es1 w os1 w1 es2 os2 w2 :
  sent_in_order config start es1 w os1 w1 ->
  sent_in_order config (start + len es1) es2 w1 os2 w2 ->
  sent_in_order config start (es1 ++ es2) w (os1 ++ os2) w2.
Proof.
  induction 1 as [| start ev events w o wa outcomes w' Hsend _ IH]; intros H2.
  - unfold len in H2. cbn in H2. rewrite Z.add_0_r in H2. exact H2.
  - cbn [app]. econstructor; [exact Hsend |]. apply IH.
    replace (start + 1 + len events) with (start + len (ev :: events));
      [exact H2 |].
    unfold len. cbn [List.length]. lia.
Qed.

Lemma sent_in_order_renumber config start events w os w' d :
  sent_in_order config start events w os w' ->
  sent_in_order config (start + d) events w (map (renumber d) os) w'.
Proof.
  induction 1 as [| start ev events w o wa outcomes w' Hsend _ IH].
  - constructor.
  - cbn [map]. econstructor.
    + replace d with (start + d - start) at 2 by lia.
      apply send_event_renumber. exact Hsend.
    + replace (start + d + 1) with (start + 1 + d) by lia. exact IH.
Qed.

Lemma send_events_sequential_run events config w :
  exists results w',
    send_events_sequential events config w = (Ok results, w') /\
    sent_in_order config 1 events w results w'.
Proof.
  destruct (for_each_send config events 1 [] w) as (results & w' & Hrun & Hord).
  exists results, w'. split; [| exact Hord].
  unfold send_events_sequential, tqdm. destruct (SHOW_PROGRESS config); exact Hrun.
Qed.

(** Sending a list in two parts: the outcomes of [es1 ++ es2] are those of
    [es1] followed by those of [es2] sent in the world [es1] left, with the
    indices of the second part continued after [len(es1)].  So the outcomes
    of the first events do not depend on the events that follow. *)
Theorem send_events_sequential_app es1 es2 config w :
  exists r1 w1 r2 w2,
    send_events_sequential es1 config w = (Ok r1, w1) /\
    send_events_sequential es2 config w1 = (Ok r2, w2) /\
    send_events_sequential (es1 ++ es2) config w =
      (Ok (r1 ++ map (renumber (len es1)) r2)%list, w2).
Proof.
  destruct (send_events_sequential_run es1 config w) as (r1 & w1 & Hr1 & Hs1).
  destruct (send_events_sequential_run es2 config w1) as (r2 & w2 & Hr2 & Hs2).
  destruct (send_events_sequential_run (es1 ++ es2) config w)
    as (r & w' & Hr & Hs).
  exists r1, w1, r2, w2. split; [exact Hr1 |]. split; [exact Hr2 |].
  apply (sent_in_order_renumber _ _ _ _ _ _ (len es1)) in Hs2.
  pose proof (sent_in_order_app _ _ _ _ _ _ _ _ _ Hs1 Hs2) as Happ.
  destruct (sent_in_order_deterministic _ _ _ _ _ _ Hs _ _ Happ) as [-> ->].
  exact Hr.
Qed.

Lemma skipn_tl {A} (n : nat) (l : list A) : skipn n (tl l) = skipn (S n) l.
Proof. destruct l; [destruct n; reflexivity | reflexivity]. Qed.

Lemma sent_in_order_frame config start events w os w' :
  sent_in_order config start events w os w' ->
  random w' = random w /\ fake w' = fake w /\ clock w' = clock w /\
  endpoint w' = skipn (List.length events) (endpoint w).
Proof.
  induction 1 as [| start ev events w o wa outcomes w' Hsend _ IH].
  - repeat split.
  - apply send_event_frame in Hsend as (_ & Hr & Hf & Hc & He).
    destruct IH as (IHr & IHf & IHc & IHe).
    rewrite IHr, IHf, IHc, IHe, Hr, Hf, Hc, He, skipn_tl. repeat split.
Qed.

(** Sequential sending makes one request per event, in order, and no
    other: it always returns, it has taken as many exchanges of the
    endpoint as there are events, and it has drawn nothing from the random
    generators nor read the clock.  A failed send is not retried and does
    not stop the sends after it. *)
Theorem send_events_sequential_one_request_each events config w r w' :
  send_events_sequential events config w = (r, w') ->
  (exists results,
     r = Ok results /\ List.length results = List.length events) /\
  random w' = random w /\ fake w' = fake w /\ clock w' = clock w /\
  endpoint w' = skipn (List.length events) (endpoint w).
Proof.
  intros H.
  destruct (send_events_sequential_run events config w)
    as (results & w1 & Hrun & Hord).
  rewrite Hrun in H. injection H as <- <-. split.
  - exists results. split; [reflexivity |].
    eapply sent_in_order_length; exact Hord.
  - eapply sent_in_order_frame; exact Hord.
Qed.

Lemma send_events_sequential_one_request_each_witness :
  exists results w',
    send_events_sequential
      [event_of "login" "100000000001"; event_of "purchase" "100000000002"]
      default_Config
      (world_answering_all
         [Fault (ConnectionError "timed out"); Response 200 "ok";
          Response 200 "unused"]) = (Ok results, w') /\
    List.length results = 2%nat /\
    List.length (endpoint w') = 1%nat.
Proof.
  destruct (send_events_sequential
              [event_of "login" "100000000001";
               event_of "purchase" "100000000002"]
              default_Config
              (world_answering_all
                 [Fault (ConnectionError "timed out"); Response 200 "ok";
                  Response 200 "unused"]))
    as [r w'] eqn:Hrun.
  destruct (send_events_sequential_one_request_each _ _ _ _ _ Hrun)
    as ((results & -> & Hlen) & _ & _ & _ & Hendpoint).
  exists results, w'. split; [reflexivity |]. split; [exact Hlen |].
  rewrite Hendpoint. reflexivity.
Defined.

Lemma sent_in_order_split config es1 :
  forall start es2 w os w',
    sent_in_order config start (es1 ++ es2) w os w' ->
    exists os1 w1 os2,
      os = (os1 ++ os2)%list /\
      sent_in_order config start es1 w os1 w1 /\
      sent_in_order config (start + len es1) es2 w1 os2 w'.
Proof.
  induction es1 as [| ev es1 IH]; intros start es2 w os w' H.
  - exists [], w, os. split; [reflexivity |]. split; [constructor |].
    unfold len. cbn. rewrite Z.add_0_r. exact H.
  - cbn [app] in H. inversion H as [| ? ? ? ? o wa outcomes ? Hsend Hrest]; subst.
    destruct (IH _ _ _ _ _ Hrest) as (os1 & w1 & os2 & -> & H1 & H2).
    exists (o :: os1), w1, os2. split; [reflexivity |].
    split; [econstructor; eassumption |].
    replace (start + len (ev :: es1)) with (start + 1 + len es1); [exact H2 |].
    unfold len. cbn [List.length]. lia.
Qed.

(** C6: sequential mode returns, for every list of events, one outcome per
    event, and the outcome at position [i] (counted from 0) is the outcome
    of sending the event at position [i] in that very run: it is what
    [send_event] returns for that event and the index [i + 1] in the world
    that sending the first [i] events has left, so it carries that index
    and the idcard and type of that event.  The run as a whole is the
    chain of these sends, each starting where the previous one ended. *)
Theorem send_events_sequential_in_order events config w :
  exists results w',
    send_events_sequential events config w = (Ok results, w') /\
    List.length results = List.length events /\
    sent_in_order config 1 events w results w' /\
    forall i event,
      nth_error events i = Some event ->
      exists o wi wi',
        nth_error results i = Some o /\
        Outcome.index o = Z.of_nat i + 1 /\
        Outcome.idcard o = idcard (traits event) /\
        Outcome.type o = type event /\
        send_events_sequential (firstn i events) config w =
          (Ok (firstn i results), wi) /\
        send_event event (Z.of_nat i + 1) config wi = (Ok o, wi').
Proof.
  destruct (send_events_sequential_run events config w)
    as (results & w' & Hrun & Hord).
  exists results, w'. split; [exact Hrun |].
  split; [eapply sent_in_order_length; exact Hord |].
  split; [exact Hord |].
  intros i event Hi.
  assert (Hlt : (i < List.length events)%nat)
    by (apply nth_error_Some; rewrite Hi; discriminate).
  pose proof (firstn_skipn_middle i events Hi) as Hsplit.
  rewrite <- Hsplit in Hord.
  apply sent_in_order_split in Hord as (os1 & w1 & os2 & -> & H1 & H2).
  inversion H2 as [| ? ? ? ? o wa os2' ? Hsend Hrest]; subst.
  pose proof (sent_in_order_length _ _ _ _ _ _ H1) as Hlen1.
  rewrite length_firstn, Nat.min_l in Hlen1 by lia.
  assert (Hidx : 1 + len (firstn i events) = Z.of_nat i + 1).
  { unfold len. rewrite length_firstn, Nat.min_l by lia. lia. }
  rewrite Hidx in Hsend.
  destruct (send_event_echo _ _ _ _ _ _ Hsend) as (Hindex & Hid & Hty).
  destruct (send_events_sequential_run (firstn i events) config w)
    as (r1 & w1' & Hrun1 & Hord1).
  destruct (sent_in_order_deterministic _ _ _ _ _ _ Hord1 _ _ H1) as [-> ->].
  exists o, w1, wa. split; [| split; [| split; [| split; [| split]]]].
  - rewrite nth_error_app2 by lia.
    replace (i - List.length os1)%nat with 0%nat by lia. reflexivity.
  - exact Hindex.
  - exact Hid.
  - exact Hty.
  - rewrite Hrun1. do 2 f_equal.
    rewrite firstn_app, firstn_all2 by lia.
    replace (i - List.length os1)%nat with 0%nat by lia.
    cbn [firstn]. rewrite app_nil_r. reflexivity.
  - exact Hsend.
Qed.

Lemma send_events_sequential_in_order_witness :
  exists results w',
    send_events_sequential
      [event_of "login" "100000000001"; event_of "purchase" "100000000002"]
      default_Config
      (world_answering_all [Response 200 "ok"; Response 500 "down"]) =
      (Ok results, w') /\
    List.length results = 2%nat /\
    exists o,
      nth_error results 1 = Some o /\
      Outcome.index o = 2 /\
      Outcome.idcard o = "100000000002" /\
      Outcome.type o = "purchase" /\
      Outcome.status_code o = 500 /\
      Outcome.detail o = response (Some "down").
Proof.
  destruct (send_events_sequential_in_order
              [event_of "login" "100000000001";
               event_of "purchase" "100000000002"]
              default_Config
              (world_answering_all [Response 200 "ok"; Response 500 "down"]))
    as (results & w' & Hrun & Hlen & _ & Hnth).
  destruct (Hnth 1%nat (event_of "purchase" "100000000002") eq_refl)
    as (o & wi & wi' & Ho & Hidx & Hid & Hty & Hprefix & Hsend).
  exists results, w'. split; [exact Hrun |]. split; [exact Hlen |].
  exists o. repeat (split; [assumption |]).
  cbv in Hprefix. injection Hprefix as _ <-.
  cbv in Hsend. injection Hsend as <- _. split; reflexivity.
Defined.

(* ================================================================== *)
(** * More on the statistics *)
(* ================================================================== *)

Lemma percent_ok a b q :
  percent a b = Ok q -> b <> 0 /\ q = Qmult (Qmake a (Z.to_pos b)) (inject_Z 100).
Proof.
  unfold percent. destruct (b =? 0) eqn:Hb; [discriminate |].
  apply Z.eqb_neq in Hb. intros H. injection H as <-. split; [exact Hb | reflexivity].
Qed.

Lemma print_statistics_fields results events report :
  print_statistics results events = Ok report ->
  results <> [] /\
  success_count report = len (filter Outcome.success results) /\
  failed_count report = len results - len (filter Outcome.success results) /\
  total report = len results /\
  success_percent report =
    Qmult (Qmake (success_count report) (Z.to_pos (len results))) (inject_Z 100) /\
  failed_percent report =
    Qmult (Qmake (failed_count report) (Z.to_pos (len results))) (inject_Z 100) /\
  failed_lines report =
    (if 0 <? failed_count report
     then Some (map (fun r => (Outcome.index r, slice_to 10 (Outcome.idcard r),
                               error_msg r))
                    (firstn 10 (filter (fun r => negb (Outcome.success r))
                                       results)))
     else None).
Proof.
  unfold print_statistics.
  destruct (percent (len (filter Outcome.success results)) (len results))
    as [sp | e] eqn:Hsp; [| discriminate].
  destruct (percent (len results - len (filter Outcome.success results))
                    (len results)) as [fp | e] eqn:Hfp; [| discriminate].
  intros H. injection H as <-. cbn.
  apply percent_ok in Hsp as [Hne ->]. apply percent_ok in Hfp as [_ ->].
  split; [| repeat split].
  intros ->. apply Hne. reflexivity.
Qed.

(** [print_statistics] fails exactly when it is given no outcome: then, and
    only then, it raises [ZeroDivisionError], whatever the events are. *)
Theorem print_statistics_raises_iff_no_results results events :
  (results = [] <->
   print_statistics results events =
     Raise (ZeroDivisionError "division by zero")) /\
  (results <> [] <-> exists report, print_statistics results events = Ok report).
Proof.
  split; split.
  - intros ->. reflexivity.
  - intros H. destruct results as [| r results]; [reflexivity |].
    destruct (print_statistics_returns (r :: results) events ltac:(discriminate))
      as [report Hok].
    rewrite Hok in H. discriminate H.
  - apply print_statistics_returns.
  - intros [report H]. apply print_statistics_fields in H. apply H.
Qed.

Lemma filter_negb_length {A} (p : A -> bool) (l : list A) :
  (List.length (filter p l) + List.length (filter (fun x => negb (p x)) l)
   = List.length l)%nat.
Proof.
  induction l as [| x l IH]; [reflexivity |].
  cbn [filter]. destruct (p x); cbn [negb List.length]; lia.
Qed.

Lemma send_event_success_flag event index config w o w' :
  send_event event index config w = (Ok o, w') ->
  Outcome.success o = contains [200; 201] (Outcome.status_code o).
Proof.
  intros H.
  destruct (requests_post (request_of event config) w) as [[[s t] | e] w1] eqn:Hp.
  - rewrite (send_event_on_response _ index _ _ _ _ _ Hp) in H.
    injection H as <- _. reflexivity.
  - rewrite (send_event_on_fault _ index _ _ _ _ Hp) in H.
    injection H as <- _. reflexivity.
Qed.

Lemma sent_in_order_success_flags config start events w outcomes w' :
  sent_in_order config start events w outcomes w' ->
  Forall (fun o => Outcome.success o
                   = contains [200; 201] (Outcome.status_code o)) outcomes.
Proof.
  induction 1 as [| start ev events w o wa outcomes w' Hsend _ IH];
    constructor; [| exact IH].
  eapply send_event_success_flag; exact Hsend.
Qed.

Lemma successes_are_200_and_201 (results : list Outcome.t) :
  Forall (fun o => Outcome.success o
                   = contains [200; 201] (Outcome.status_code o)) results ->
  len (filter Outcome.success results) =
    tally Z.eq_dec (map Outcome.status_code results) 200 +
    tally Z.eq_dec (map Outcome.status_code results) 201.
Proof.
  unfold len, tally. induction 1 as [| o results Ho _ IH]; [reflexivity |].
  cbn [filter map count_occ]. rewrite Ho. unfold contains. cbn [existsb].
  destruct (Z.eq_dec (Outcome.status_code o) 200) as [E200 | N200];
    destruct (Z.eq_dec (Outcome.status_code o) 201) as [E201 | N201];
    try lia.
  - rewrite E200. cbn [Z.eqb Pos.eqb orb List.length]. lia.
  - rewrite E201. cbn [Z.eqb Pos.eqb orb List.length]. lia.
  - apply Z.eqb_neq in N200, N201. rewrite N200, N201. cbn [orb]. lia.
Qed.

(** The head of the report: [success_count] is the number of outcomes whose
    success flag is set, [failed_count] the number of the others, and the
    two add up to the number of outcomes; no outcome failed exactly when
    [failed_count] is 0.  For the outcomes of a sequential run
    [success_count] is the number of status codes 200 plus the number of
    status codes 201. *)
Theorem print_statistics_success_and_failure results events report :
  print_statistics results events = Ok report ->
  success_count report = len (filter Outcome.success results) /\
  failed_count report =
    len (filter (fun r => negb (Outcome.success r)) results) /\
  success_count report + failed_count report = total report /\
  total report = len results /\
  (failed_count report = 0 <->
   forall r, In r results -> Outcome.success r = true) /\
  (forall sent config w w',
     send_events_sequential sent config w = (Ok results, w') ->
     success_count report =
       tally Z.eq_dec (map Outcome.status_code results) 200 +
       tally Z.eq_dec (map Outcome.status_code results) 201).
Proof.
  intros H. apply print_statistics_fields in H
    as (Hne & Hs & Hf & Ht & _).
  pose proof (filter_negb_length Outcome.success results) as Hsplit.
  assert (Hf0 : failed_count report
                = len (filter (fun r => negb (Outcome.success r)) results)).
  { rewrite Hf. unfold len. lia. }
  split; [exact Hs |]. split; [exact Hf0 |].
  split; [rewrite Hs, Hf, Ht; lia |]. split; [exact Ht |]. split.
  - rewrite Hf0. split.
    + intros Hzero r Hr. destruct (Outcome.success r) eqn:Hsr; [reflexivity |].
      assert (Hin : In r (filter (fun r => negb (Outcome.success r)) results)).
      { apply filter_In. split; [exact Hr | rewrite Hsr; reflexivity]. }
      destruct (filter (fun r => negb (Outcome.success r)) results);
        [destruct Hin |].
      unfold len in Hzero. cbn [List.length] in Hzero. lia.
    + intros Hall.
      destruct (filter (fun r => negb (Outcome.success r)) results)
        as [| r rest] eqn:Hfl; [reflexivity |].
      assert (Hin : In r (filter (fun r => negb (Outcome.success r)) results))
        by (rewrite Hfl; left; reflexivity).
      apply filter_In in Hin as [Hr Hfail].
      rewrite (Hall r Hr) in Hfail. discriminate Hfail.
  - intros sent config w w' Hrun.
    destruct (send_events_sequential_run sent config w)
      as (results' & w1 & Hrun' & Hord).
    rewrite Hrun in Hrun'. injection Hrun' as <- <-.
    rewrite Hs. apply successes_are_200_and_201.
    eapply sent_in_order_success_flags; exact Hord.
Qed.

Lemma print_statistics_raises_iff_no_results_witness :
  print_statistics [] scenario_events =
    Raise (ZeroDivisionError "division by zero") /\
  exists report, print_statistics scenario_results [] = Ok report.
Proof.
  destruct (print_statistics_raises_iff_no_results [] scenario_events)
    as [[Hraise _] _].
  destruct (print_statistics_raises_iff_no_results scenario_results [])
    as [_ [Hok _]].
  split; [apply Hraise; reflexivity | apply Hok; discriminate].
Defined.

Lemma print_statistics_success_and_failure_witness :
  exists results w' report,
    send_events_sequential
      [event_of "login" "A"; event_of "login" "B"; event_of "login" "C";
       event_of "login" "D"]
      default_Config
      (world_answering_all
         [Response 200 "ok"; Response 500 "down"; Response 201 "created";
          Response 202 "accepted"]) = (Ok results, w') /\
    print_statistics results [] = Ok report /\
    success_count report = 2 /\ failed_count report = 2 /\
    total report = 4.
Proof.
  destruct (send_events_sequential
              [event_of "login" "A"; event_of "login" "B";
               event_of "login" "C"; event_of "login" "D"]
              default_Config
              (world_answering_all
                 [Response 200 "ok"; Response 500 "down";
                  Response 201 "created"; Response 202 "accepted"]))
    as [[results | e] w'] eqn:Hrun; [| vm_compute in Hrun; discriminate Hrun].
  destruct (print_statistics results []) as [report | e] eqn:Hrep.
  - destruct (print_statistics_success_and_failure _ _ _ Hrep)
      as (_ & _ & Hsum & Htotal & _ & Hcodes).
    specialize (Hcodes _ _ _ _ Hrun).
    exists results, w', report. split; [reflexivity |].
    split; [exact Hrep |].
    assert (Hres : map Outcome.status_code results = [200; 500; 201; 202]).
    { vm_compute in Hrun. injection Hrun as <- _. reflexivity. }
    assert (Hlen : len results = 4).
    { unfold len. rewrite <- (length_map Outcome.status_code), Hres.
      reflexivity. }
    rewrite Hres in Hcodes.
    change (success_count report = 2) in Hcodes.
    rewrite Hlen in Htotal. rewrite Htotal in Hsum.
    split; [exact Hcodes |]. split; [lia | exact Htotal].
  - exfalso. vm_compute in Hrun. injection Hrun as <- _.
    vm_compute in Hrep. discriminate Hrep.
Defined.

Lemma item_le_trans a b c :
  item_le a b = true -> item_le b c = true -> item_le a c = true.
Proof.
  unfold item_le. destruct a as [a1 a2], b as [b1 b2], c as [c1 c2].
  cbn [fst snd].
  rewrite !orb_true_iff, !andb_true_iff, !Z.ltb_lt, !Z.eqb_eq, !Z.leb_le. lia.
Qed.

(** Sorted item pairs with pairwise different keys ascend strictly. *)
Lemma item_le_sorted_strict (l : list (Z * Z)) :
  StronglySorted (fun a b => item_le a b = true) l ->
  NoDup (map fst l) ->
  StronglySorted (fun a b => fst a < fst b) l.
Proof.
  induction 1 as [| a l _ IH Hall]; intros Hnd; [constructor |].
  cbn [map] in Hnd. inversion Hnd as [| ? ? Hnin Hnd']; subst.
  constructor; [apply IH; exact Hnd' |].
  rewrite Forall_forall in *. intros b Hb.
  specialize (Hall b Hb). unfold item_le in Hall.
  rewrite orb_true_iff, andb_true_iff, Z.ltb_lt, Z.eqb_eq in Hall.
  destruct Hall as [Hlt | [Heq _]]; [exact Hlt |].
  exfalso. apply Hnin. rewrite Heq. apply in_map. exact Hb.
Qed.

Lemma count_ge_sorted_descending {K} (l : list (K * Z)) :
  StronglySorted (fun a b => count_ge a b = true) l ->
  StronglySorted (fun a b => snd b <= snd a) l.
Proof.
  induction 1 as [| a l _ IH Hall]; constructor; [exact IH |].
  eapply Forall_impl; [| exact Hall]. intros b Hab. apply Z.leb_le. exact Hab.
Qed.

(** The two histograms of the report are printed in order: the status
    codes strictly ascending, each once, and the event types by descending
    count, each once. *)
Theorem print_statistics_lines_sorted results events report :
  print_statistics results events = Ok report ->
  StronglySorted (fun a b => fst a < fst b) (status_lines report) /\
  StronglySorted (fun a b => snd b <= snd a) (type_lines report) /\
  NoDup (map fst (type_lines report)).
Proof.
  intros H. destruct (print_statistics_ok _ _ _ H) as (_ & Hs & Ht & _).
  rewrite Hs, Ht. split; [| split].
  - apply item_le_sorted_strict.
    + apply sorted_StronglySorted; [apply item_le_total | apply item_le_trans].
    + apply (sorted_histogram_lines Z.eq_dec Z.eqb item_le _ Z.eqb_eq).
  - apply count_ge_sorted_descending.
    apply sorted_StronglySorted; [apply count_ge_total | apply count_ge_trans].
  - apply (sorted_histogram_lines string_dec String.eqb count_ge _ String.eqb_eq).
Qed.

Lemma print_statistics_lines_sorted_witness :
  exists report,
    print_statistics
      [outcome_of 1 500 false; outcome_of 2 200 true; outcome_of 3 500 false]
      [event_of "purchase" "A"; event_of "login" "B"; event_of "login" "C"] =
      Ok report /\
    status_lines report = [(200, 1); (500, 2)] /\
    type_lines report = [("login", 2); ("purchase", 1)] /\
    StronglySorted (fun a b => fst a < fst b) (status_lines report).
Proof.
  destruct (print_statistics
              [outcome_of 1 500 false; outcome_of 2 200 true;
               outcome_of 3 500 false]
              [event_of "purchase" "A"; event_of "login" "B";
               event_of "login" "C"])
    as [report | e] eqn:Hrun; [| vm_compute in Hrun; discriminate Hrun].
  destruct (print_statistics_lines_sorted _ _ _ Hrun) as (Hsorted & _).
  exists report. split; [reflexivity |].
  vm_compute in Hrun. injection Hrun as <-.
  split; [reflexivity |]. split; [reflexivity | exact Hsorted].
Defined.

(** Two strictly ascending lists with the same members are the same list. *)
Lemma strictly_sorted_ext (l1 : list (Z * Z)) :
  forall l2,
    StronglySorted (fun a b => fst a < fst b) l1 ->
    StronglySorted (fun a b => fst a < fst b) l2 ->
    (forall x, In x l1 <-> In x l2) -> l1 = l2.
Proof.
  induction l1 as [| a t1 IH]; intros [| b t2] H1 H2 Hsame.
  - reflexivity.
  - exfalso. apply (proj2 (Hsame b)). left. reflexivity.
  - exfalso. apply (proj1 (Hsame a)). left. reflexivity.
  - inversion H1 as [| ? ? Hs1 Hall1]; subst.
    inversion H2 as [| ? ? Hs2 Hall2]; subst.
    rewrite Forall_forall in Hall1, Hall2.
    assert (Hab : a = b).
    { destruct (proj1 (Hsame a) (or_introl eq_refl)) as [Hba | Ha];
        [symmetry; exact Hba |].
      destruct (proj2 (Hsame b) (or_introl eq_refl)) as [Hab | Hb];
        [exact Hab |].
      pose proof (Hall2 a Ha). pose proof (Hall1 b Hb). lia. }
    subst b. f_equal. apply IH; [exact Hs1 | exact Hs2 |].
    intros x. split; intros Hx.
    + destruct (proj1 (Hsame x) (or_intror Hx)) as [<- | Hx2]; [| exact Hx2].
      pose proof (Hall1 a Hx). lia.
    + destruct (proj2 (Hsame x) (or_intror Hx)) as [<- | Hx1]; [| exact Hx1].
      pose proof (Hall2 a Hx). lia.
Qed.

Lemma status_lines_Permutation codes codes' :
  Permutation codes codes' ->
  sorted item_le (items (count_keys Z.eqb codes)) =
  sorted item_le (items (count_keys Z.eqb codes')).
Proof.
  intros Hperm.
  destruct (sorted_histogram_lines Z.eq_dec Z.eqb item_le codes Z.eqb_eq)
    as (_ & Hnd & Hin).
  destruct (sorted_histogram_lines Z.eq_dec Z.eqb item_le codes' Z.eqb_eq)
    as (_ & Hnd' & Hin').
  apply strictly_sorted_ext.
  - apply item_le_sorted_strict; [| exact Hnd].
    apply sorted_StronglySorted; [apply item_le_total | apply item_le_trans].
  - apply item_le_sorted_strict; [| exact Hnd'].
    apply sorted_StronglySorted; [apply item_le_total | apply item_le_trans].
  - intros [k n]. rewrite Hin, Hin'. unfold tally.
    rewrite (proj1 (Permutation_count_occ Z.eq_dec _ _) Hperm k).
    split; intros [Hk Hn]; (split; [| exact Hn]).
    + eapply Permutation_in; eassumption.
    + eapply Permutation_in; [apply Permutation_sym |]; eassumption.
Qed.

(** The report does not depend on the order of the outcomes, such as the
    order in which concurrent sends complete: for a permutation of the
    outcomes the counts, the percentages, the status-code lines and
    everything computed from the events are the same; only the list of
    failed requests follows the order of the outcomes. *)
Theorem print_statistics_order_of_outcomes results results' events report :
  Permutation results results' ->
  print_statistics results events = Ok report ->
  exists report',
    print_statistics results' events = Ok report' /\
    success_count report' = success_count report /\
    failed_count report' = failed_count report /\
    total report' = total report /\
    success_percent report' = success_percent report /\
    failed_percent report' = failed_percent report /\
    status_lines report' = status_lines report /\
    type_lines report' = type_lines report /\
    unique_idcards report' = unique_idcards report /\
    idcards_with_duplicates report' = idcards_with_duplicates report /\
    merge_total report' = merge_total report /\
    top_idcards report' = top_idcards report.
Proof.
  intros Hperm H.
  pose proof (print_statistics_fields _ _ _ H)
    as (Hne & Hs & Hf & Ht & Hsp & Hfp & _).
  assert (Hne' : results' <> []).
  { intros ->. apply Hne. apply Permutation_nil. apply Permutation_sym.
    exact Hperm. }
  destruct (print_statistics_returns results' events Hne') as [report' H'].
  exists report'. split; [exact H' |].
  pose proof (print_statistics_fields _ _ _ H')
    as (_ & Hs' & Hf' & Ht' & Hsp' & Hfp' & _).
  destruct (print_statistics_ok _ _ _ H)
    as (_ & Hst & Hty & Hun & Hdu & Hme & Htop).
  destruct (print_statistics_ok _ _ _ H')
    as (_ & Hst' & Hty' & Hun' & Hdu' & Hme' & Htop').
  assert (Hlen : len results' = len results).
  { unfold len. f_equal. symmetry. apply Permutation_length. exact Hperm. }
  assert (Hsucc : len (filter Outcome.success results')
                  = len (filter Outcome.success results)).
  { unfold len. f_equal. symmetry.
    apply Permutation_length, Permutation_filter_both. exact Hperm. }
  assert (Hsc : success_count report' = success_count report) by congruence.
  assert (Hfc : failed_count report' = failed_count report) by congruence.
  split; [exact Hsc |]. split; [exact Hfc |]. split; [congruence |].
  split; [congruence |]. split; [congruence |].
  split.
  { rewrite Hst, Hst'. symmetry. apply status_lines_Permutation.
    apply Permutation_map. exact Hperm. }
  repeat split; congruence.
Qed.

Lemma print_statistics_order_of_outcomes_witness :
  exists report report',
    print_statistics
      [outcome_of 1 500 false; outcome_of 2 200 true; outcome_of 3 404 false]
      scenario_events = Ok report /\
    print_statistics
      [outcome_of 3 404 false; outcome_of 1 500 false; outcome_of 2 200 true]
      scenario_events = Ok report' /\
    status_lines report' = status_lines report /\
    success_count report' = success_count report.
Proof.
  destruct (print_statistics
              [outcome_of 1 500 false; outcome_of 2 200 true;
               outcome_of 3 404 false] scenario_events)
    as [report | e] eqn:Hrun; [| vm_compute in Hrun; discriminate Hrun].
  assert (Hperm : Permutation
                    [outcome_of 1 500 false; outcome_of 2 200 true;
                     outcome_of 3 404 false]
                    [outcome_of 3 404 false; outcome_of 1 500 false;
                     outcome_of 2 200 true]).
  { apply Permutation_sym.
    apply (Permutation_cons_app [outcome_of 1 500 false; outcome_of 2 200 true] []).
    rewrite app_nil_r. apply Permutation_refl. }
  destruct (print_statistics_order_of_outcomes _ _ _ _ Hperm Hrun)
    as (report' & Hrun' & Hsc & _ & _ & _ & _ & Hst & _).
  exists report, report'. repeat split; assumption.
Defined.

(** Counting identities: in a list of positive counts, the items counted
    once are as many as the total exceeds the sum of the larger counts. *)
Lemma counts_split (l : list (string * Z)) :
  Forall (fun kv => 1 <= snd kv) l ->
  let dups := filter (fun kv : string * Z => 1 <? snd kv) l in
  len l - len dups = sum (map snd l) - sum (map snd dups) /\
  2 * len dups <= sum (map snd dups) /\
  len dups <= len l.
Proof.
  unfold len. induction 1 as [| [k v] l Hv _ IH]; cbn zeta in *.
  - cbn. lia.
  - cbn [filter snd map] in *. rewrite sum_cons.
    destruct (1 <? v) eqn:Hgt.
    + apply Z.ltb_lt in Hgt. cbn [map List.length snd]. rewrite sum_cons.
      cbn [snd]. lia.
    + apply Z.ltb_ge in Hgt. cbn [List.length snd] in *. lia.
Qed.

(** How the identity figures of the report hang together: the idcards that
    occur once are as many as the events outside any merge,
    [unique - duplicated = len(events) - merge_total]; every duplicated
    idcard accounts for at least two merged events; and
    [duplicated <= unique <= len(events)], [merge_total <= len(events)]. *)
Theorem print_statistics_identity_figures results events report :
  print_statistics results events = Ok report ->
  unique_idcards report - idcards_with_duplicates report =
    len events - merge_total report /\
  2 * idcards_with_duplicates report <= merge_total report /\
  0 <= idcards_with_duplicates report <= unique_idcards report /\
  unique_idcards report <= len events /\
  merge_total report <= len events.
Proof.
  intros H. destruct (print_statistics_ok _ _ _ H)
    as (_ & _ & _ & Hun & Hdu & Hme & _).
  set (d := count_keys String.eqb (idcards events)) in *.
  assert (Hpos : Forall (fun kv : string * Z => 1 <= snd kv) d).
  { rewrite Forall_forall. intros [k v] Hin.
    apply (count_keys_item string_dec String.eqb String.eqb_eq) in Hin
      as [Hin ->].
    cbn [snd]. unfold tally.
    apply (count_occ_In string_dec) in Hin. lia. }
  destruct (counts_split d Hpos) as (Hsplit & Htwo & Hle).
  destruct (count_keys_spec string_dec String.eqb String.eqb_eq (idcards events))
    as (_ & _ & _ & Hsum).
  fold d in Hsum. unfold values, items in *.
  assert (Hev : len (idcards events) = len events).
  { unfold len, idcards. rewrite length_map. reflexivity. }
  assert (H0 : 0 <= len (filter (fun kv : string * Z => 1 <? snd kv) d))
    by (unfold len; lia).
  rewrite Hun, Hdu, Hme. lia.
Qed.

Lemma print_statistics_identity_figures_witness :
  exists report,
    print_statistics scenario_results
      (map (event_of "login") ["A"; "B"; "A"; "C"; "A"; "D"; "B"]) =
      Ok report /\
    unique_idcards report = 4 /\
    idcards_with_duplicates report = 2 /\
    merge_total report = 5 /\
    unique_idcards report - idcards_with_duplicates report =
      7 - merge_total report.
Proof.
  destruct (print_statistics scenario_results
              (map (event_of "login") ["A"; "B"; "A"; "C"; "A"; "D"; "B"]))
    as [report | e] eqn:Hrun; [| vm_compute in Hrun; discriminate Hrun].
  destruct (print_statistics_identity_figures _ _ _ Hrun) as (Hsplit & _).
  exists report. split; [reflexivity |].
  assert (Hfig : unique_idcards report = 4 /\
                 idcards_with_duplicates report = 2 /\
                 merge_total report = 5).
  { vm_compute in Hrun. injection Hrun as <-. repeat split. }
  destruct Hfig as (Hu & Hd & Hm). repeat split; assumption.
Defined.



(* ================================================================== *)
(** * The pools and the events of [main] *)
(* ================================================================== *)

Lemma random_int_pool lo hi n w :
  lo <= hi ->
  exists pool w',
    comprehension (fun _ : Z => v <- fake_random_int lo hi ;; ret (str v))
                  (range 0 n) w = (Ok pool, w') /\
    List.length pool = Z.to_nat n /\
    (forall s, In s pool -> exists v, lo <= v <= hi /\ s = str v) /\
    endpoint w' = endpoint w.
Proof.
  intros Hle.
  destruct (comprehension_returns
              (fun _ : Z => v <- fake_random_int lo hi ;; ret (str v))
              (range 0 n)) with (w := w) as (pool & w' & Hrun).
  { intros x w0 _.
    destruct (fake_random_int_returns lo hi w0 Hle) as (v & w1 & Hv).
    exists (str v), w1. eapply bind_ok_intro; [exact Hv | reflexivity]. }
  exists pool, w'. split; [exact Hrun |].
  assert (Hoff : endpoint w' = endpoint w).
  { revert Hrun. apply comprehension_offline. intros x.
    apply offline_bind; [apply offline_with_fake | intros v; apply offline_ret]. }
  apply comprehension_ok_inv in Hrun.
  destruct (Forall2_right _ (fun s => exists v, lo <= v <= hi /\ s = str v)
              _ _ Hrun) as [Hlen Hall].
  { intros x s _ (w1 & w2 & Hs).
    apply bind_ok_inv in Hs as (v & w3 & Hv & Hs).
    apply ret_ok_inv in Hs as [<- _]. apply fake_random_int_range in Hv.
    exists v. split; [exact Hv | reflexivity]. }
  rewrite range_length, Z.sub_0_r in Hlen. rewrite Forall_forall in Hall.
  repeat split; assumption.
Qed.

Lemma generate_events_offline n idcard_pool old_idcard_pool :
  offline (generate_events n idcard_pool old_idcard_pool).
Proof.
  unfold generate_events. apply comprehension_offline.
  intros i. apply generate_event_offline.
Qed.

Lemma generate_events_none n idcard_pool old_idcard_pool w :
  n <= 0 -> generate_events n idcard_pool old_idcard_pool w = (Ok [], w).
Proof.
  intros Hn. unfold generate_events, range.
  replace (Z.to_nat (n + 1 - 1)) with 0%nat by lia. reflexivity.
Qed.

Lemma generate_events_empty_pool n old_idcard_pool w :
  1 <= n ->
  generate_events n [] old_idcard_pool w =
    (Raise (ValueError "empty range for randrange()"), w).
Proof.
  intros Hn. unfold generate_events, range.
  destruct (Z.to_nat (n + 1 - 1)) as [| k] eqn:Hk; [lia |].
  cbn [seq map comprehension]. unfold bind at 1.
  rewrite generate_event_empty_pool_raises. reflexivity.
Qed.

(** [main_events] builds two pools of the configured size, without using
    the endpoint, and generates the events from them. *)
Lemma main_events_run config w :
  exists pool old w2,
    main_events config w = generate_events (NUM_EVENTS config) pool old w2 /\
    List.length pool = Z.to_nat (NUM_UNIQUE_IDCARDS config) /\
    List.length old = Z.to_nat (NUM_UNIQUE_IDCARDS config) /\
    incl pool idcard_candidates /\
    endpoint w2 = endpoint w.
Proof.
  destruct (random_int_pool 100000000000 100000000095
              (NUM_UNIQUE_IDCARDS config) w ltac:(lia))
    as (pool & w1 & Hpool & Hlen & Hin & He1).
  destruct (random_int_pool 100000000 999999999
              (NUM_UNIQUE_IDCARDS config) w1 ltac:(lia))
    as (old & w2 & Hold & Hlen' & _ & He2).
  fold (make_idcard_pool (NUM_UNIQUE_IDCARDS config)) in Hpool.
  fold (make_old_idcard_pool (NUM_UNIQUE_IDCARDS config)) in Hold.
  exists pool, old, w2. split; [| split; [| split; [| split]]].
  - unfold main_events, bind. rewrite Hpool, Hold. reflexivity.
  - exact Hlen.
  - exact Hlen'.
  - intros s Hs. apply idcard_candidates_in. apply Hin. exact Hs.
  - congruence.
Qed.

(** The run of [main] up to the events.  The two pools are built with the
    same length, so reading the old idcard never raises [IndexError]: with
    at least one unique idcard configured the events are generated, as many
    as configured, each with an idcard among the 96 texts the pool can
    hold; with none configured and at least one event to generate, the
    first event raises [ValueError]; with no event to generate the list is
    empty whatever the pools are.  In no case is the endpoint used. *)
Theorem main_events_outcome config w :
  (1 <= NUM_UNIQUE_IDCARDS config ->
   exists events w',
     main_events config w = (Ok events, w') /\
     List.length events = Z.to_nat (NUM_EVENTS config) /\
     incl (idcards events) idcard_candidates /\
     endpoint w' = endpoint w) /\
  (NUM_UNIQUE_IDCARDS config <= 0 -> 1 <= NUM_EVENTS config ->
   exists w',
     main_events config w =
       (Raise (ValueError "empty range for randrange()"), w') /\
     endpoint w' = endpoint w) /\
  (NUM_EVENTS config <= 0 ->
   exists w', main_events config w = (Ok [], w') /\ endpoint w' = endpoint w).
Proof.
  destruct (main_events_run config w)
    as (pool & old & w2 & Hrun & Hlen & Hlen' & Hin & He).
  rewrite Hrun. split; [| split].
  - intros HK.
    destruct (generate_events_returns (NUM_EVENTS config) pool old w2)
      as (events & w' & Hgen).
    { destruct pool; [simpl in Hlen; lia | discriminate]. }
    { lia. }
    exists events, w'. split; [exact Hgen |].
    destruct (generate_events_idcards _ _ _ _ _ _ Hgen) as [Hn Hincl].
    split; [exact Hn |]. split.
    + intros s Hs. apply Hin. apply Hincl. exact Hs.
    + rewrite (generate_events_offline _ _ _ _ _ _ Hgen). exact He.
  - intros HK HN. exists w2.
    assert (pool = []) as -> by (destruct pool; [reflexivity | simpl in Hlen; lia]).
    rewrite generate_events_empty_pool by exact HN.
    split; [reflexivity | exact He].
  - intros HN. exists w2. rewrite generate_events_none by exact HN.
    split; [reflexivity | exact He].
Qed.

Lemma main_events_outcome_witness :
  (exists events w',
     main_events default_Config (world_answering_all []) = (Ok events, w') /\
     List.length events = 1000%nat) /\
  (exists w',
     main_events
       {| API_URL := ""; API_KEY := ""; NUM_EVENTS := 5;
          NUM_UNIQUE_IDCARDS := 0; BATCH_SIZE := 50; SAVE_TO_FILE := false;
          SHOW_PROGRESS := false |} (world_answering_all []) =
       (Raise (ValueError "empty range for randrange()"), w')).
Proof.
  split.
  - destruct (main_events_outcome default_Config (world_answering_all []))
      as (Hok & _ & _).
    destruct (Hok ltac:(cbn; lia)) as (events & w' & Hrun & Hlen & _).
    exists events, w'. split; [exact Hrun | exact Hlen].
  - destruct (main_events_outcome
                {| API_URL := ""; API_KEY := ""; NUM_EVENTS := 5;
                   NUM_UNIQUE_IDCARDS := 0; BATCH_SIZE := 50;
                   SAVE_TO_FILE := false; SHOW_PROGRESS := false |}
                (world_answering_all [])) as (_ & Hraise & _).
    destruct (Hraise ltac:(cbn; lia) ltac:(cbn; lia)) as (w' & Hrun & _).
    exists w'. exact Hrun.
Defined.

(* ================================================================== *)
(** * [main] in sequential mode *)
(* ================================================================== *)

Lemma sent_in_order_idcards config start events w outcomes w' :
  sent_in_order config start events w outcomes w' ->
  map Outcome.idcard outcomes = idcards events.
Proof.
  induction 1 as [| start ev events w o wa outcomes w' Hsend _ IH];
    [reflexivity |].
  apply send_event_echo in Hsend as (_ & Hid & _).
  unfold idcards in *. cbn [map]. rewrite Hid, IH. reflexivity.
Qed.

Lemma unique_idcards_le_96 results events report :
  print_statistics results events = Ok report ->
  incl (idcards events) idcard_candidates ->
  unique_idcards report <= 96.
Proof.
  intros H Hincl. destruct (print_statistics_ok _ _ _ H)
    as (_ & _ & _ & Hun & _).
  rewrite Hun. unfold len.
  replace (List.length (count_keys String.eqb (idcards events)))
    with (List.length (keys (count_keys String.eqb (idcards events))))
    by (unfold keys; apply length_map).
  rewrite (Permutation_length (idcard_keys_Permutation _)).
  pose proof (distinct_length_le _ _ Hincl) as Hle.
  rewrite idcard_candidates_length in Hle. lia.
Qed.

Lemma main_sequential_unfold config w events w1 results w2 :
  main_events config w = (Ok events, w1) ->
  send_events_sequential events config w1 = (Ok results, w2) ->
  main_sequential config w = (print_statistics results events, w2).
Proof.
  intros He Hs. unfold main_sequential, bind, lift. rewrite He, Hs. reflexivity.
Qed.

(** A sequential run of [main], end to end.  With at least one unique
    idcard and at least one event configured it prints its report: the
    report counts as many outcomes as events were configured, one request
    was made per event, and at most 96 unique idcards are reported.  With
    no event configured the run ends in [ZeroDivisionError], and with
    events but no unique idcard configured in [ValueError]; in both cases
    no request has been made. *)
Theorem main_sequential_outcome config w :
  (1 <= NUM_UNIQUE_IDCARDS config -> 1 <= NUM_EVENTS config ->
   exists report w',
     main_sequential config w = (Ok report, w') /\
     total report = NUM_EVENTS config /\
     success_count report + failed_count report = NUM_EVENTS config /\
     unique_idcards report <= 96 /\
     endpoint w' = skipn (Z.to_nat (NUM_EVENTS config)) (endpoint w)) /\
  (NUM_EVENTS config <= 0 ->
   exists w',
     main_sequential config w =
       (Raise (ZeroDivisionError "division by zero"), w') /\
     endpoint w' = endpoint w) /\
  (NUM_UNIQUE_IDCARDS config <= 0 -> 1 <= NUM_EVENTS config ->
   exists w',
     main_sequential config w =
       (Raise (ValueError "empty range for randrange()"), w') /\
     endpoint w' = endpoint w).
Proof.
  destruct (main_events_run config w)
    as (pool & old & w2 & Hrun & Hlen & Hlen' & Hin & He).
  split; [| split].
  - intros HK HN.
    destruct (generate_events_returns (NUM_EVENTS config) pool old w2)
      as (events & w3 & Hgen).
    { destruct pool; [simpl in Hlen; lia | discriminate]. }
    { lia. }
    rewrite <- Hrun in Hgen.
    destruct (send_events_sequential_run events config w3)
      as (results & w4 & Hsend & Hord).
    rewrite (main_sequential_unfold _ _ _ _ _ _ Hgen Hsend).
    rewrite Hrun in Hgen.
    destruct (generate_events_idcards _ _ _ _ _ _ Hgen) as [Hn Hincl].
    pose proof (sent_in_order_length _ _ _ _ _ _ Hord) as Hrl.
    destruct (print_statistics_returns results events) as [report Hrep].
    { destruct results; [simpl in Hrl; lia | discriminate]. }
    exists report, w4. split; [rewrite Hrep; reflexivity |].
    pose proof (print_statistics_fields _ _ _ Hrep)
      as (_ & Hs & Hf & Ht & _).
    assert (Htotal : len results = NUM_EVENTS config).
    { unfold len. rewrite Hrl, Hn. lia. }
    split; [congruence |]. split; [rewrite Hs, Hf; lia |]. split.
    + apply (unique_idcards_le_96 _ _ _ Hrep).
      intros s Hs'. apply Hin, Hincl. exact Hs'.
    + destruct (sent_in_order_frame _ _ _ _ _ _ Hord) as (_ & _ & _ & Hend).
      rewrite Hend, Hn, (generate_events_offline _ _ _ _ _ _ Hgen), He.
      reflexivity.
  - intros HN. exists w2.
    assert (Hgen : main_events config w = (Ok [], w2)).
    { rewrite Hrun. apply generate_events_none. exact HN. }
    assert (Hsend : send_events_sequential [] config w2 = (Ok [], w2)).
    { unfold send_events_sequential, tqdm.
      destruct (SHOW_PROGRESS config); reflexivity. }
    rewrite (main_sequential_unfold _ _ _ _ _ _ Hgen Hsend).
    split; [reflexivity | exact He].
  - intros HK HN. exists w2.
    assert (pool = []) as -> by (destruct pool; [reflexivity | simpl in Hlen; lia]).
    unfold main_sequential, bind. rewrite Hrun.
    rewrite generate_events_empty_pool by exact HN.
    split; [reflexivity | exact He].
Qed.

Lemma main_sequential_outcome_witness :
  (exists report w',
     main_sequential
       {| API_URL := "http://localhost:8080/v1/profiles/track";
          API_KEY := "cdp_demo_demo"; NUM_EVENTS := 3;
          NUM_UNIQUE_IDCARDS := 2; BATCH_SIZE := 50; SAVE_TO_FILE := false;
          SHOW_PROGRESS := false |}
       (world_answering_all [Response 200 "ok"; Response 500 "down"]) =
       (Ok report, w') /\
     total report = 3) /\
  (exists w',
     main_sequential
       {| API_URL := "http://localhost:8080/v1/profiles/track";
          API_KEY := "cdp_demo_demo"; NUM_EVENTS := 0;
          NUM_UNIQUE_IDCARDS := 2; BATCH_SIZE := 50; SAVE_TO_FILE := false;
          SHOW_PROGRESS := false |}
       (world_answering_all [Response 200 "ok"]) =
       (Raise (ZeroDivisionError "division by zero"), w')).
Proof.
  split.
  - destruct (main_sequential_outcome
                {| API_URL := "http://localhost:8080/v1/profiles/track";
                   API_KEY := "cdp_demo_demo"; NUM_EVENTS := 3;
                   NUM_UNIQUE_IDCARDS := 2; BATCH_SIZE := 50;
                   SAVE_TO_FILE := false; SHOW_PROGRESS := false |}
                (world_answering_all [Response 200 "ok"; Response 500 "down"]))
      as (Hok & _ & _).
    destruct (Hok ltac:(cbn; lia) ltac:(cbn; lia))
      as (report & w' & Hrun & Htotal & _).
    exists report, w'. split; [exact Hrun | exact Htotal].
  - destruct (main_sequential_outcome
                {| API_URL := "http://localhost:8080/v1/profiles/track";
                   API_KEY := "cdp_demo_demo"; NUM_EVENTS := 0;
                   NUM_UNIQUE_IDCARDS := 2; BATCH_SIZE := 50;
                   SAVE_TO_FILE := false; SHOW_PROGRESS := false |}
                (world_answering_all [Response 200 "ok"]))
      as (_ & Hzero & _).
    destruct (Hzero ltac:(cbn; lia)) as (w' & Hrun & _).
    exists w'. exact Hrun.
Defined.

Lemma idcard_candidates_prefix s :
  In s idcard_candidates -> slice_to 10 s = "1000000000".
Proof.
  assert (Hall : forallb (fun s => String.eqb (slice_to 10 s) "1000000000")
                         idcard_candidates = true)
    by (vm_compute; reflexivity).
  intros Hs. apply String.eqb_eq.
  exact (proj1 (forallb_forall _ _) Hall s Hs).
Qed.

(** The list of failed requests of a sequential run cannot tell the
    identities apart: it shows the first ten characters of an idcard, and
    every idcard of the pool of [main] starts with the same ten characters,
    [1000000000]. *)
Theorem main_sequential_failed_idcards_alike config w report w' :
  main_sequential config w = (Ok report, w') ->
  forall lines i id msg,
    failed_lines report = Some lines ->
    In (i, id, msg) lines -> id = "1000000000".
Proof.
  intros H lines i id msg Hlines Hin.
  unfold main_sequential in H.
  apply bind_ok_inv in H as (events & w1 & Hev & H).
  apply bind_ok_inv in H as (results & w2 & Hsend & H).
  apply lift_ok_inv in H as [Hrep _].
  destruct (main_events_run config w)
    as (pool & old & w0 & Hrun & _ & _ & Hpool & _).
  rewrite Hrun in Hev.
  destruct (generate_events_idcards _ _ _ _ _ _ Hev) as [_ Hincl].
  destruct (send_events_sequential_run events config w1)
    as (results' & w2' & Hsend' & Hord).
  rewrite Hsend in Hsend'. injection Hsend' as <- <-.
  pose proof (sent_in_order_idcards _ _ _ _ _ _ Hord) as Hids.
  apply print_statistics_fields in Hrep as (_ & _ & _ & _ & _ & _ & Hfl).
  rewrite Hfl in Hlines.
  destruct (0 <? failed_count report); [| discriminate Hlines].
  injection Hlines as <-.
  apply in_map_iff in Hin as (r & Heq & Hr). injection Heq as _ <- _.
  assert (Hr' : In r results).
  { assert (Hf : In r (filter (fun r => negb (Outcome.success r)) results)).
    { rewrite <- (firstn_skipn 10). apply in_or_app. left. exact Hr. }
    apply filter_In in Hf. apply Hf. }
  apply idcard_candidates_prefix, Hpool, Hincl.
  rewrite <- Hids. apply in_map. exact Hr'.
Qed.

Lemma main_sequential_failed_idcards_alike_witness :
  exists report w' lines,
    main_sequential
      {| API_URL := "http://localhost:8080/v1/profiles/track";
         API_KEY := "cdp_demo_demo"; NUM_EVENTS := 2;
         NUM_UNIQUE_IDCARDS := 2; BATCH_SIZE := 50; SAVE_TO_FILE := false;
         SHOW_PROGRESS := false |}
      {| random := [0; 0; 0; 0; 0; 0; 0; 0; 0; 0; 0; 0; 0; 0; 0; 0; 0; 0; 0; 0; 1];
         fake := {| locale := fun _ _ => ""; generator := [7; 42] |};
         clock := []; endpoint := [] |} = (Ok report, w') /\
    failed_lines report = Some lines /\
    map (fun line => snd (fst line)) lines = ["1000000000"; "1000000000"].
Proof.
  destruct (main_sequential
              {| API_URL := "http://localhost:8080/v1/profiles/track";
                 API_KEY := "cdp_demo_demo"; NUM_EVENTS := 2;
                 NUM_UNIQUE_IDCARDS := 2; BATCH_SIZE := 50;
                 SAVE_TO_FILE := false; SHOW_PROGRESS := false |}
              {| random := [0; 0; 0; 0; 0; 0; 0; 0; 0; 0; 0; 0; 0; 0; 0; 0;
                            0; 0; 0; 0; 1];
                 fake := {| locale := fun _ _ => ""; generator := [7; 42] |};
                 clock := []; endpoint := [] |})
    as [[report | e] w'] eqn:Hrun; [| vm_compute in Hrun; discriminate Hrun].
  pose proof (main_sequential_failed_idcards_alike _ _ _ _ Hrun) as Halike.
  destruct (failed_lines report) as [lines |] eqn:Hlines.
  - exists report, w', lines. split; [reflexivity |]. split; [exact Hlines |].
    assert (Hlen : List.length lines = 2%nat).
    { vm_compute in Hrun. injection Hrun as <- _.
      vm_compute in Hlines. injection Hlines as <-. reflexivity. }
    destruct lines as [| [[i1 id1] m1] [| [[i2 id2] m2] [| l3 rest]]];
      try discriminate Hlen.
    cbn [map fst snd].
    rewrite (Halike _ i1 id1 m1 eq_refl ltac:(simpl; tauto)).
    rewrite (Halike _ i2 id2 m2 eq_refl ltac:(simpl; tauto)).
    reflexivity.
  - exfalso. vm_compute in Hrun. injection Hrun as <- _.
    vm_compute in Hlines. discriminate Hlines.
Defined.
